(** * Locator reconciliation and code-generation pipeline

    A shallow embedding of the pure parts of the test-automation
    framework: the identifier sanitizer ([utils.py]), the oracle helpers
    ([ollama_utils.py]), the locator validation loops
    ([locator_extractor_refactored.py], [Backupcodes/pom_generator_backup.py]),
    the accessor generator, the step/locator scan
    ([gherkin_generator_refactored.py]), the fence stripping, the
    xpath requoting and the step parsing of
    [gherkin_to_test_ai_refactored.py], and the class name derivation
    of [main_refactored.py].

    Python [str] values are modelled as [string]: a sequence of 8-bit
    characters read as the code points 0..255 (the Latin-1 block), with
    Python's own character tables for that block. *)

From Stdlib Require Import Ascii NArith Bool.
From stdpp Require Import base gmap strings list pretty.

(** ** Python string primitives *)

Module PyStr.

Definition code (c : ascii) : N := N_of_ascii c.

Definition between (lo hi : N) (c : ascii) : bool :=
  ((lo <=? code c) && (code c <=? hi))%N.

(** Code points below 128. *)
Definition is_ascii (c : ascii) : bool := (code c <? 128)%N.

(** [str.isdigit] on one character: the decimal digits and the
    superscripts 2, 3 and 1. *)
Definition isdigit (c : ascii) : bool :=
  between 48 57 c || between 178 179 c || between 185 185 c.

(** The class [\w] of [re] on a [str] pattern: [str.isalnum] or the
    underscore. *)
Definition is_word (c : ascii) : bool :=
  between 48 57 c || between 65 90 c || between 95 95 c
  || between 97 122 c || between 170 170 c || between 178 179 c
  || between 181 181 c || between 185 186 c || between 188 190 c
  || between 192 214 c || between 216 246 c || between 248 255 c.

(** Characters that [str.lower] changes. *)
Definition is_upper (c : ascii) : bool :=
  between 65 90 c || between 192 214 c || between 216 222 c.

Definition lower_char (c : ascii) : ascii :=
  if is_upper c then ascii_of_N (code c + 32) else c.

(** Whitespace of [str.strip] with no argument. *)
Definition is_space (c : ascii) : bool :=
  between 9 13 c || between 28 32 c || between 133 133 c
  || between 160 160 c.

(** Line boundaries of [str.splitlines]. *)
Definition is_linebreak (c : ascii) : bool :=
  between 10 13 c || between 28 30 c || between 133 133 c.

Definition is_char (x c : ascii) : bool := bool_decide (c = x).

Definition char (c : ascii) : string := String c EmptyString.

Fixpoint map (f : ascii -> ascii) (s : string) : string :=
  match s with
  | EmptyString => EmptyString
  | String c t => String (f c) (map f t)
  end.

Fixpoint all (p : ascii -> bool) (s : string) : bool :=
  match s with
  | EmptyString => true
  | String c t => p c && all p t
  end.

(** [s.lower()] *)
Definition lower (s : string) : string := map lower_char s.

(** [s.replace(x, r)] for a one-character [x]. *)
Fixpoint replace (x : ascii) (r : string) (s : string) : string :=
  match s with
  | EmptyString => EmptyString
  | String c t =>
      if is_char x c then r +:+ replace x r t else String c (replace x r t)
  end.

Fixpoint lstrip (p : ascii -> bool) (s : string) : string :=
  match s with
  | EmptyString => EmptyString
  | String c t => if p c then lstrip p t else s
  end.

Fixpoint rstrip (p : ascii -> bool) (s : string) : string :=
  match s with
  | EmptyString => EmptyString
  | String c t =>
      match rstrip p t with
      | EmptyString => if p c then EmptyString else char c
      | r => String c r
      end
  end.

(** [s.strip(chars)] with the characters to remove given as a class. *)
Definition strip_class (p : ascii -> bool) (s : string) : string :=
  rstrip p (lstrip p s).

(** [s.strip()] *)
Definition strip (s : string) : string := strip_class is_space s.

Definition is_empty (s : string) : bool :=
  match s with EmptyString => true | _ => false end.

Definition head (s : string) : option ascii :=
  match s with EmptyString => None | String c _ => Some c end.

Fixpoint last (s : string) : option ascii :=
  match s with
  | EmptyString => None
  | String c EmptyString => Some c
  | String _ t => last t
  end.

(** [s.startswith(p)] *)
Fixpoint startswith (p s : string) : bool :=
  match p, s with
  | EmptyString, _ => true
  | String a p', String b s' => bool_decide (a = b) && startswith p' s'
  | String _ _, EmptyString => false
  end.

(** [p in s] *)
Fixpoint contains (p s : string) : bool :=
  startswith p s
  || match s with
     | EmptyString => false
     | String _ t => contains p t
     end.

(** [s.index(p)]: the lowest position where [p] occurs, [None] for
    Python's [ValueError]. *)
Fixpoint index (p s : string) : option nat :=
  if startswith p s then Some 0
  else match s with
       | EmptyString => None
       | String _ t => S <$> index p t
       end.

(** [s.rindex(p)]: the highest position where [p] occurs. *)
Fixpoint rindex (p s : string) : option nat :=
  match s with
  | EmptyString => if startswith p s then Some 0 else None
  | String _ t =>
      match rindex p t with
      | Some i => Some (S i)
      | None => if startswith p s then Some 0 else None
      end
  end.

Fixpoint drop (n : nat) (s : string) : string :=
  match n, s with
  | O, _ => s
  | S n', String _ t => drop n' t
  | S _, EmptyString => EmptyString
  end.

Fixpoint take (n : nat) (s : string) : string :=
  match n, s with
  | S n', String c t => String c (take n' t)
  | _, _ => EmptyString
  end.

(** [s[a:b]] for non-negative [a] and [b]; empty when [b <= a]. *)
Definition slice (a b : nat) (s : string) : string :=
  take (b - a) (drop a s).

(** [s.splitlines()]: a carriage return followed by a line feed is one
    boundary; the text after the last boundary is a line only when it
    is not empty. *)
Fixpoint splitlines_go (cur : string) (s : string) : list string :=
  match s with
  | EmptyString => if is_empty cur then [] else [String.rev cur]
  | String c t =>
      if is_linebreak c then
        String.rev cur ::
          match c, t with
          | "013"%char, String "010"%char t' => splitlines_go EmptyString t'
          | _, _ => splitlines_go EmptyString t
          end
      else splitlines_go (String c cur) t
  end.

Definition splitlines (s : string) : list string :=
  splitlines_go EmptyString s.

(** The line feed and the double quote. *)
Definition nl : string := char "010".
Definition dq : string := char "034".

End PyStr.

(** ** [utils.py] *)

Module Utils.
Import PyStr.

(** [re.sub(r'\W+', '_', s)]: every maximal run of characters outside
    [\w] becomes one underscore. [in_run] tells that the previous
    character already belonged to such a run. *)
Fixpoint sub_nonword_runs (in_run : bool) (s : string) : string :=
  match s with
  | EmptyString => EmptyString
  | String c t =>
      if is_word c then String c (sub_nonword_runs false t)
      else if in_run then sub_nonword_runs true t
      else String "_"%char (sub_nonword_runs true t)
  end.

(** [f"unnamed_{str(category_for_fallback).lower().replace(' ', '_')}"] *)
Definition fallback_name (category_for_fallback : string) : string :=
  "unnamed_" +:+ replace " "%char "_" (lower category_for_fallback).

Definition sanitize_identifier_for_method_name
    (raw_identifier_str category_for_fallback : string) : string :=
  if is_empty raw_identifier_str then fallback_name category_for_fallback
  else
    let sane_name := sub_nonword_runs false (lower raw_identifier_str) in
    let sane_name := strip_class (is_char "_"%char) sane_name in
    let sane_name :=
      if is_empty sane_name then fallback_name category_for_fallback
      else sane_name in
    match head sane_name with
    | Some c => if isdigit c then "_" +:+ sane_name else sane_name
    | None => sane_name
    end.

(** The default value of the parameter [category_for_fallback]. *)
Definition default_category : string := "element".

(** The sanitizer called with one argument. *)
Definition sanitize (s : string) : string :=
  sanitize_identifier_for_method_name s default_category.

End Utils.

(** ** Values decoded from JSON, and raised exceptions *)

Module Py.

(** The members of a decoded JSON object that the pipeline reads are
    text or [null]; a missing key is [None] of [d !! key]. *)
Inductive jval : Type :=
| JNull
| JStr (s : string).

#[global] Instance jval_eq_dec : EqDecision jval.
Proof. solve_decision. Defined.

(** A decoded JSON object. *)
Abbreviation dict := (gmap string jval).

(** One element of a decoded JSON array. *)
Inductive entry : Type :=
| NonObject
| Object (d : dict).

Inductive exn : Type :=
| AttributeError
| RuntimeError.

(** The outcome of a call that may raise. *)
Inductive result (A : Type) : Type :=
| Ok (a : A)
| Raise (e : exn).
Arguments Ok {A} a.
Arguments Raise {A} e.

#[global] Instance result_bind : MBind result := fun A B k r =>
  match r with
  | Ok a => k a
  | Raise e => Raise e
  end.

#[global] Instance result_ret : MRet result := fun A a => Ok a.

(** Truth value of the result of [d.get(key)]: [None] and the empty
    string are false. *)
Definition truthy (v : option jval) : bool :=
  match v with
  | Some (JStr s) => negb (PyStr.is_empty s)
  | _ => false
  end.

End Py.

(** ** [locator_extractor_refactored.py] *)

Module LocatorExtractor.
Import Py.

(** The validation loop of [extract_locators]. The state is the pair of
    [seen] and [unique_locators]; [locator.get] on an element that is
    not an object raises. *)
Fixpoint validate_loop (locators : list entry)
    (seen : gset string) (unique_locators : list dict)
    : result (gset string * list dict) :=
  match locators with
  | [] => Ok (seen, unique_locators)
  | NonObject :: _ => Raise AttributeError
  | Object locator :: rest =>
      match locator !! "identifier" with
      | Some (JStr identifier) =>
          if PyStr.is_empty identifier || bool_decide (identifier ∈ seen)
          then validate_loop rest seen unique_locators
          else if negb (truthy (locator !! "xpath"))
                  || negb (truthy (locator !! "css_selector"))
          then validate_loop rest seen unique_locators
          else validate_loop rest ({[identifier]} ∪ seen)
                             (unique_locators ++ [locator])
      | _ => validate_loop rest seen unique_locators
      end
  end.

(** What [generate_json_with_ollama] hands back: [None], a decoded
    array, or some other decoded value with its truth value. *)
Inductive parsed : Type :=
| PNone
| PList (l : list entry)
| POther (truth : bool).

(** [extract_locators] from the oracle's answer on: the guard on the
    answer, then the validation loop; the value is the returned
    [unique_locators]. *)
Definition extract_locators (locators : parsed) : result (list dict) :=
  match locators with
  | PList [] => Raise RuntimeError
  | PList l => st ← validate_loop l ∅ []; Ok st.2
  | _ => Raise RuntimeError
  end.

End LocatorExtractor.

(** ** [Backupcodes/pom_generator_backup.py] *)

Module PomGenerator.
Import Py.

(** The validation loop of [generate_pom]: elements that are not
    objects are skipped. *)
Fixpoint validate_loop (locators : list entry)
    (seen_raw_identifiers : gset string) (unique_locators : list dict)
    : gset string * list dict :=
  match locators with
  | [] => (seen_raw_identifiers, unique_locators)
  | NonObject :: rest =>
      validate_loop rest seen_raw_identifiers unique_locators
  | Object locator_item :: rest =>
      match locator_item !! "identifier" with
      | Some (JStr raw_identifier) =>
          if PyStr.is_empty raw_identifier
             || bool_decide (raw_identifier ∈ seen_raw_identifiers)
          then validate_loop rest seen_raw_identifiers unique_locators
          else if negb (truthy (locator_item !! "xpath"))
                  && negb (truthy (locator_item !! "css_selector"))
          then validate_loop rest seen_raw_identifiers unique_locators
          else validate_loop rest ({[raw_identifier]} ∪ seen_raw_identifiers)
                             (unique_locators ++ [locator_item])
      | _ => validate_loop rest seen_raw_identifiers unique_locators
      end
  end.

(** [str(v)] *)
Definition py_str (v : jval) : string :=
  match v with
  | JNull => "None"
  | JStr s => s
  end.

(** [sanitize_identifier_for_method_name(raw_identifier, category)] on
    the values read from a record: a false [raw_identifier] takes the
    fallback, as the empty string does. *)
Definition sanitize_values (raw_identifier : option jval) (category : jval)
    : string :=
  Utils.sanitize_identifier_for_method_name
    (match raw_identifier with Some (JStr s) => s | _ => EmptyString end)
    (py_str category).

(** The loop [while actual_method_name_part in generated_method_names].
    Each turn tries one more name, so [fuel] turns are enough when [fuel]
    is the size of the set; [None] stands for running out of turns. *)
Fixpoint resolve_loop (fuel : nat) (method_name_base : string)
    (generated_method_names : gset string)
    (actual_method_name_part : string) (count : nat) : option string :=
  if bool_decide (actual_method_name_part ∈ generated_method_names) then
    match fuel with
    | O => None
    | S fuel' =>
        resolve_loop fuel' method_name_base generated_method_names
          (method_name_base +:+ "_" +:+ pretty count) (S count)
    end
  else Some actual_method_name_part.

Definition resolve_name (method_name_base : string)
    (generated_method_names : gset string) : option string :=
  resolve_loop (size generated_method_names) method_name_base
    generated_method_names method_name_base 1.

(** [locator_value.replace("'", "\\'")] *)
Definition escape_quotes (locator_value : string) : string :=
  PyStr.replace "'"%char (String "092"%char "'") locator_value.

Definition def_line (verb name params : string) : string :=
  "    def " +:+ verb +:+ name +:+ "(" +:+ params +:+ "):" +:+ PyStr.nl.

Definition debug_line (what name escaped : string) : string :=
  "        logging.debug(f" +:+ PyStr.dq +:+ what +:+ name +:+ " using XPath: "
  +:+ escaped +:+ PyStr.dq +:+ ")" +:+ PyStr.nl.

Definition wait_line (condition escaped : string) : string :=
  "        element = self.wait.until(EC." +:+ condition +:+ "((By.XPATH, '"
  +:+ escaped +:+ "')))" +:+ PyStr.nl.

Definition guarded_click : string :=
  "        if not element.is_selected():" +:+ PyStr.nl
  +:+ "            element.click()" +:+ PyStr.nl.

Definition input_field_method (name escaped : string) : string :=
  def_line "enter_" name "self, value"
  +:+ debug_line "Entering '{value}' into " name escaped
  +:+ wait_line "presence_of_element_located" escaped
  +:+ "        element.clear()" +:+ PyStr.nl
  +:+ "        element.send_keys(value)" +:+ PyStr.nl
  +:+ PyStr.nl.

Definition button_method (name escaped : string) : string :=
  def_line "click_" name "self"
  +:+ debug_line "Clicking " name escaped
  +:+ wait_line "element_to_be_clickable" escaped
  +:+ "        element.click()" +:+ PyStr.nl
  +:+ PyStr.nl.

Definition checkbox_method (name escaped : string) : string :=
  def_line "check_" name "self"
  +:+ debug_line "Checking " name escaped
  +:+ wait_line "presence_of_element_located" escaped
  +:+ guarded_click
  +:+ PyStr.nl.

Definition dropdown_method (name escaped : string) : string :=
  def_line "select_option_from_" name "self, option_text"
  +:+ debug_line "Selecting '{option_text}' from " name escaped
  +:+ wait_line "presence_of_element_located" escaped
  +:+ "        select = Select(element)" +:+ PyStr.nl
  +:+ "        select.select_by_visible_text(option_text)" +:+ PyStr.nl
  +:+ PyStr.nl.

Definition radio_method (name escaped : string) : string :=
  def_line "select_" name "self"
  +:+ debug_line "Selecting radio " name escaped
  +:+ wait_line "element_to_be_clickable" escaped
  +:+ guarded_click
  +:+ PyStr.nl.

(** The chain [if category == ... elif ...]: the text appended to
    [pom_content], or [None] when [method_added] stays false. *)
Definition method_for (category : jval) (name escaped : string)
    : option string :=
  if bool_decide (category = JStr "input_field") then
    Some (input_field_method name escaped)
  else if bool_decide (category = JStr "button") then
    Some (button_method name escaped)
  else if bool_decide (category = JStr "checkbox") then
    Some (checkbox_method name escaped)
  else if bool_decide (category = JStr "dropdown") then
    Some (dropdown_method name escaped)
  else if bool_decide (category = JStr "radio") then
    Some (radio_method name escaped)
  else None.

(** One turn of the loop over [unique_locators]: the name given to the
    record, and the text appended for it if any. *)
Definition method_step (locator_item : dict)
    (generated_method_names : gset string) : option (string * option string) :=
  let raw_identifier := locator_item !! "identifier" in
  let category := default (JStr "other") (locator_item !! "category") in
  let method_name_base := sanitize_values raw_identifier category in
  actual_method_name_part ← resolve_name method_name_base generated_method_names;
  let xpath := default (JStr EmptyString) (locator_item !! "xpath") in
  if negb (truthy (Some xpath)) then Some (actual_method_name_part, None)
  else
    Some (actual_method_name_part,
          method_for category actual_method_name_part
            (escape_quotes (py_str xpath))).

(** The loop over [unique_locators]. The state is
    [generated_method_names] and [pom_content]; the list of names handed
    out, in order, is kept beside them. *)
Fixpoint methods_loop (unique_locators : list dict)
    (generated_method_names : gset string) (names : list string)
    (pom_content : list string)
    : option (gset string * list string * list string) :=
  match unique_locators with
  | [] => Some (generated_method_names, names, pom_content)
  | locator_item :: rest =>
      '(name, added) ← method_step locator_item generated_method_names;
      methods_loop rest ({[name]} ∪ generated_method_names) (names ++ [name])
        (match added with
         | Some text => pom_content ++ [text]
         | None => pom_content
         end)
  end.

End PomGenerator.

(** ** [ollama_utils.py] *)

Module OllamaUtils.
Import Py.

(** The decoded body of the service's answer: [response.json()]. *)
Inductive body : Type :=
| BodyNotObject
| BodyObject (d : dict).

(** What one HTTP exchange ends in: an exception of [requests.post],
    of [raise_for_status] or of [response.json], or a decoded body. *)
Inductive exchange : Type :=
| Timeout
| HTTPError
| RequestException
| JSONDecodeError
| Decoded (result : body).

(** The remote service: the outcome of an exchange, given all the prompts
    sent so far, the current one last. *)
Definition service : Type := list string -> exchange.

(** [query_ollama] on the outcome of its exchange. The four [except]
    clauses return [None]; [result.get] on a body that is not an
    object, and [strip] on a [response] member that is not text,
    raise [AttributeError], which no clause catches. *)
Definition query_result (x : exchange) : result (option string) :=
  match x with
  | Timeout | HTTPError | RequestException | JSONDecodeError => Ok None
  | Decoded BodyNotObject => Raise AttributeError
  | Decoded (BodyObject result) =>
      match default (JStr EmptyString) (result !! "response") with
      | JNull => Raise AttributeError
      | JStr model_response =>
          if PyStr.is_empty (PyStr.strip model_response) then Ok None
          else Ok (Some model_response)
      end
  end.

(** [query_ollama(prompt)]: the prompt is sent, the answer interpreted.
    [sent] lists the prompts sent before the call; the second component
    of the value lists them after it. *)
Definition query_ollama (svc : service) (prompt : string)
    (sent : list string) : result (option string) * list string :=
  (query_result (svc (sent ++ [prompt])), sent ++ [prompt]).

Definition directive : string :=
  PyStr.nl +:+ PyStr.nl
  +:+ "CRITICAL: The output MUST be a valid JSON array. Do not include any text, explanations, or markdown syntax before or after the JSON content.".

Section GenerateJson.
Context {J : Type}.
(** [json.loads], [None] for [json.JSONDecodeError]. *)
Variable json_loads : string -> option J.
Variable svc : service.

(** The loop [for attempt in range(max_retries)], [range] being the
    attempts still to run. The value is [Some parsed] for [return
    parsed] and [None] for the final [return None]. *)
Fixpoint attempts_loop (max_retries : nat) (range : list nat)
    (prompt : string) (sent : list string)
    : result (option J) * list string :=
  match range with
  | [] => (Ok None, sent)
  | attempt :: rest =>
      match query_ollama svc prompt sent with
      | (Raise e, sent') => (Raise e, sent')
      | (Ok None, sent') => attempts_loop max_retries rest prompt sent'
      | (Ok (Some response), sent') =>
          if PyStr.is_empty response then
            attempts_loop max_retries rest prompt sent'
          else
            match json_loads (PyStr.strip response) with
            | Some parsed => (Ok (Some parsed), sent')
            | None =>
                attempts_loop max_retries rest
                  (if attempt <? max_retries - 1 then prompt +:+ directive
                   else prompt)
                  sent'
            end
      end
  end.

Definition generate_json_with_ollama_n (max_retries : nat) (prompt : string)
    : result (option J) * list string :=
  attempts_loop max_retries (seq 0 max_retries) prompt [].

(** The helper with the default [max_retries=3]. *)
Definition generate_json_with_ollama (prompt : string)
    : result (option J) * list string :=
  generate_json_with_ollama_n 3 prompt.

End GenerateJson.

End OllamaUtils.

(** ** [gherkin_generator_refactored.py] *)

Module GherkinGenerator.
Import Py.

(** The dictionary [_map] of a [LocatorMap]: for an identifier, the
    [element_info] and the [gherkin_step]. *)
Abbreviation locator_map := (gmap string (dict * string)).

(** [LocatorMap.add_locator] *)
Definition add_locator (identifier : string) (element_info : dict)
    (gherkin_step : string) (_map : locator_map) : locator_map :=
  <[identifier := (element_info, gherkin_step)]> _map.

(** [line.startswith(("Given ", "When ", "And ", "Then "))] *)
Definition is_step (line : string) : bool :=
  PyStr.startswith "Given " line || PyStr.startswith "When " line
  || PyStr.startswith "And " line || PyStr.startswith "Then " line.

(** [locator.get("identifier", "").replace("_", " ")]; [replace] on
    [None] raises. *)
Definition spaced_identifier (locator : dict) : result string :=
  match default (JStr EmptyString) (locator !! "identifier") with
  | JNull => Raise AttributeError
  | JStr s => Ok (PyStr.replace "_"%char " " s)
  end.

(** The loop [for locator in locators] with its [break]. *)
Fixpoint scan_locators (locators : list dict) (line : string)
    (_map : locator_map) : result locator_map :=
  match locators with
  | [] => Ok _map
  | locator :: rest =>
      identifier ← spaced_identifier locator;
      if PyStr.contains (PyStr.lower identifier) (PyStr.lower line)
      then Ok (add_locator identifier locator line _map)
      else scan_locators rest line _map
  end.

(** The loop [for line in gherkin_content.splitlines()]. *)
Fixpoint scan_lines (lines : list string) (locators : list dict)
    (_map : locator_map) : result locator_map :=
  match lines with
  | [] => Ok _map
  | raw :: rest =>
      let line := PyStr.strip raw in
      if is_step line then
        _map' ← scan_locators locators line _map;
        scan_lines rest locators _map'
      else scan_lines rest locators _map
  end.

(** The part of [generate_gherkin] that fills the [LocatorMap] from the
    oracle's answer; an absent or empty answer raises. *)
Definition populate_locator_map (gherkin_content : option string)
    (locators : list dict) : result locator_map :=
  match gherkin_content with
  | Some content =>
      if PyStr.is_empty content then Raise RuntimeError
      else scan_lines (PyStr.splitlines content) locators ∅
  | None => Raise RuntimeError
  end.

End GherkinGenerator.

(** ** [gherkin_to_test_ai_refactored.py] *)

Module GherkinToTest.
Import Py.

(** The removal of Markdown fences in [convert_gherkin_to_test]: the
    value is the content written to the test file. [index] or [rindex]
    failing is the [ValueError] branch, which keeps the raw content. *)
Definition strip_fences (test_content : string) : string :=
  if PyStr.startswith "```python" (PyStr.strip test_content) then
    match PyStr.index PyStr.nl test_content with
    | Some first_newline =>
        match PyStr.rindex "```" test_content with
        | Some last_fence =>
            PyStr.strip
              (PyStr.slice (first_newline + 1) last_fence test_content)
        | None => test_content
        end
    | None => test_content
    end
  else test_content.

(** From the oracle's answer to the persisted content; an absent or
    empty answer raises. *)
Definition persisted_test (test_content : option string) : result string :=
  match test_content with
  | Some content =>
      if PyStr.is_empty content then Raise RuntimeError
      else Ok (strip_fences content)
  | None => Raise RuntimeError
  end.

End GherkinToTest.

(** ** Vocabulary of the properties *)

Module Spec.
Import PyStr.

(** The class [[a-z0-9_]]. *)
Definition in_class (c : ascii) : bool :=
  between 97 122 c || between 48 57 c || is_char "_"%char c.

(** [[a-z0-9_]+] against a whole string. *)
Definition class_plus (s : string) : bool :=
  negb (is_empty s) && all in_class s.

(** The pattern [^_?[a-z0-9_]+$] against a whole string (no trailing
    line feed is accepted). *)
Definition matches_name_pattern (s : string) : bool :=
  match s with
  | String "_"%char t => class_plus t || class_plus s
  | _ => class_plus s
  end.

Definition head_is (p : ascii -> bool) (s : string) : bool :=
  match head s with Some c => p c | None => false end.

Definition last_is (p : ascii -> bool) (s : string) : bool :=
  match last s with Some c => p c | None => false end.

(** A character that [str.lower] leaves alone. *)
Definition lower_fixed (c : ascii) : bool :=
  bool_decide (lower_char c = c).

(** The text of a record's [identifier], empty when the member is
    missing or [null]. *)
Definition ident (d : Py.dict) : string :=
  match d !! "identifier" with
  | Some (Py.JStr s) => s
  | _ => EmptyString
  end.

Definition has_xpath (d : Py.dict) : bool := Py.truthy (d !! "xpath").
Definition has_css (d : Py.dict) : bool := Py.truthy (d !! "css_selector").

(** The locator test of [extract_locators] and that of [generate_pom]. *)
Definition has_both (d : Py.dict) : bool := has_xpath d && has_css d.
Definition has_either (d : Py.dict) : bool := has_xpath d || has_css d.

(** The records a validation loop keeps, given its locator test and the
    identifiers seen so far. *)
Fixpoint kept (usable : Py.dict -> bool) (seen : gset string)
    (ds : list Py.dict) : list Py.dict :=
  match ds with
  | [] => []
  | d :: rest =>
      if negb (is_empty (ident d)) && negb (bool_decide (ident d ∈ seen))
         && usable d
      then d :: kept usable ({[ident d]} ∪ seen) rest
      else kept usable seen rest
  end.

(** A record with the given text members. *)
Definition record (identifier category xpath css_selector : string)
    : Py.dict :=
  <["identifier" := Py.JStr identifier]>
    (<["category" := Py.JStr category]>
       (<["xpath" := Py.JStr xpath]>
          (<["css_selector" := Py.JStr css_selector]> ∅))).

(** The values the loop of [generate_pom] reads from a record. *)
Definition category_of (d : Py.dict) : Py.jval :=
  default (Py.JStr "other") (d !! "category").

Definition method_name_base (d : Py.dict) : string :=
  PomGenerator.sanitize_values (d !! "identifier") (category_of d).

Definition escaped_xpath (d : Py.dict) : string :=
  PomGenerator.escape_quotes
    (PomGenerator.py_str (default (Py.JStr EmptyString) (d !! "xpath"))).

(** The names tried for a base: the base itself, then the base with the
    suffixes [_1], [_2], ... *)
Definition candidate (base : string) (k : nat) : string :=
  match k with
  | O => base
  | S _ => base +:+ "_" +:+ pretty k
  end.

(** The method text a record contributes under the name it was given. *)
Definition emitted (item : Py.dict * string) : option string :=
  if has_xpath item.1
  then PomGenerator.method_for (category_of item.1) item.2
         (escaped_xpath item.1)
  else None.

(** The categories that have a method template. *)
Definition recognised (category : Py.jval) : bool :=
  bool_decide (category ∈ [Py.JStr "input_field"; Py.JStr "button";
                           Py.JStr "checkbox"; Py.JStr "dropdown";
                           Py.JStr "radio"]).

(** The verb that each method template puts before the name part in
    its [def] line. *)
Definition verb_prefix (category : Py.jval) : option string :=
  if bool_decide (category = Py.JStr "input_field") then Some "enter_"
  else if bool_decide (category = Py.JStr "button") then Some "click_"
  else if bool_decide (category = Py.JStr "checkbox") then Some "check_"
  else if bool_decide (category = Py.JStr "dropdown") then
    Some "select_option_from_"
  else if bool_decide (category = Py.JStr "radio") then Some "select_"
  else None.

(** The method name that the [def] line of a record declares under the
    name part it was given: the verb, then the name part; [None] when
    the record gets no method. *)
Definition method_name (item : Py.dict * string) : option string :=
  if has_xpath item.1
  then (fun verb => verb +:+ item.2) <$> verb_prefix (category_of item.1)
  else None.

(** An exchange that ends in one of the exceptions that [query_ollama]
    catches. *)
Definition is_transport_failure (x : OllamaUtils.exchange) : bool :=
  match x with
  | OllamaUtils.Decoded _ => false
  | _ => true
  end.

(** The text of the answer when the decoded body is an object whose
    [response] member is text or missing (then the text is empty). *)
Definition response_text (x : OllamaUtils.exchange) : option string :=
  match x with
  | OllamaUtils.Decoded (OllamaUtils.BodyObject d) =>
      match d !! "response" with
      | None => Some EmptyString
      | Some (Py.JStr s) => Some s
      | Some Py.JNull => None
      end
  | _ => None
  end.

(** An exchange that keeps to the interface of the service: a caught
    failure, or an answer with a text. *)
Definition well_formed (x : OllamaUtils.exchange) : bool :=
  is_transport_failure x || bool_decide (is_Some (response_text x)).

(** How the prompt [q'] of an attempt follows from the prompt [q] of the
    attempt before it, whose exchange had the given history: the same
    prompt after an answer without text, the prompt with the directive
    after a text that does not parse; no attempt follows a raised
    exception or a parsed text. *)
Definition retry_step {J : Type} (json_loads : string -> option J)
    (svc : OllamaUtils.service) (history : list string) (q q' : string)
    : Prop :=
  match OllamaUtils.query_result (svc history) with
  | Py.Ok None => q' = q
  | Py.Ok (Some text) =>
      json_loads (strip text) = None /\ q' = q +:+ OllamaUtils.directive
  | Py.Raise _ => False
  end.

(** An exchange, given by its history, that gave the helper no parsed
    value and raised nothing: no text, or a text that does not parse. *)
Definition no_parsed_value {J : Type} (json_loads : string -> option J)
    (svc : OllamaUtils.service) (history : list string) : Prop :=
  match OllamaUtils.query_result (svc history) with
  | Py.Ok None => True
  | Py.Ok (Some text) => json_loads (strip text) = None
  | Py.Raise _ => False
  end.

(** A service whose first exchange times out and whose later exchanges
    answer with the text of an empty JSON array; a service that answers
    with a [null] response; and a decoder that knows the empty array. *)
Definition timeout_then_answer : OllamaUtils.service := fun history =>
  match history with
  | [_] => OllamaUtils.Timeout
  | _ =>
      OllamaUtils.Decoded
        (OllamaUtils.BodyObject (<["response" := Py.JStr "[]"]> ∅))
  end.

Definition null_answer : OllamaUtils.service := fun _ =>
  OllamaUtils.Decoded (OllamaUtils.BodyObject (<["response" := Py.JNull]> ∅)).

Definition loads_empty_array (s : string) : option (list Py.entry) :=
  if bool_decide (s = "[]") then Some [] else None.

(** A service that answers with the text [null], and a decoder that
    knows that text only: [json.loads] reads it as [None], here
    [JNull]. *)
Definition null_text_answer : OllamaUtils.service := fun _ =>
  OllamaUtils.Decoded
    (OllamaUtils.BodyObject (<["response" := Py.JStr "null"]> ∅)).

Definition loads_null (s : string) : option Py.jval :=
  if bool_decide (s = "null") then Some Py.JNull else None.

(** The key under which the scan files a record: its identifier with
    the underscores replaced by spaces. *)
Definition spaced (identifier : string) : string :=
  replace "_"%char " " identifier.

(** The test of the scan: the key occurs in the line, letter case
    ignored. *)
Definition mentions (line : string) (d : Py.dict) : bool :=
  contains (lower (spaced (ident d))) (lower line).

(** A record whose identifier is text, or missing. *)
Definition has_text_identifier (d : Py.dict) : Prop :=
  d !! "identifier" ≠ Some Py.JNull.

(** The record that a step line files: the first record of the list
    that the line mentions, the identifiers up to it being texts. *)
Definition first_match (locators : list Py.dict) (line : string)
    (d : Py.dict) : Prop :=
  exists pre post,
    locators = pre ++ d :: post
    /\ Forall (fun d' => has_text_identifier d' /\ mentions line d' = false)
         pre
    /\ has_text_identifier d /\ mentions line d = true.

(** The sanitizer in two steps: the name after substitution and
    stripping, then the fallback and the digit guard. *)
Definition core (s : string) : string :=
  strip_class (is_char "_"%char) (Utils.sub_nonword_runs false (lower s)).

Definition finish (category sane_name : string) : string :=
  let sane_name :=
    if is_empty sane_name then Utils.fallback_name category else sane_name in
  match head sane_name with
  | Some c => if isdigit c then "_" +:+ sane_name else sane_name
  | None => sane_name
  end.

(** Word characters that lower-casing leaves alone. *)
Definition stable (c : ascii) : bool := is_word c && lower_fixed c.

End Spec.

(** ** Markup normalisation of [extract_locators] and [generate_pom] *)

Module Markup.
Import PyStr.

(** [re.sub(r'\s+', ' ', s)]: every maximal run of whitespace becomes
    one space. The class [\s] on a [str] pattern is the whitespace of
    [str.strip]. *)
Fixpoint collapse_spaces (in_run : bool) (s : string) : string :=
  match s with
  | EmptyString => EmptyString
  | String c t =>
      if is_space c then
        if in_run then collapse_spaces true t
        else String " "%char (collapse_spaces true t)
      else String c (collapse_spaces false t)
  end.

(** [re.sub(r'\s+', ' ', html_content).strip()] *)
Definition normalize (html_content : string) : string :=
  strip (collapse_spaces false html_content).

End Markup.

(** ** [main_refactored.py]: the class name of a page *)

Module Orchestrator.
Import PyStr.

Definition has_char (x : ascii) (s : string) : bool :=
  negb (all (fun c => negb (is_char x c)) s).

(** [s.split("/")[-1]]: the text after the last slash, the whole text
    when there is none. *)
Fixpoint last_segment (s : string) : string :=
  match s with
  | EmptyString => EmptyString
  | String c t =>
      if has_char "/"%char t then last_segment t
      else if is_char "/"%char c then t
      else s
  end.

(** [s.replace(old, new)] for a non-empty [old]: the occurrences are
    replaced from left to right without overlap. [skip] counts the
    characters of the current occurrence still to pass over. *)
Fixpoint replace_go (old new : string) (skip : nat) (s : string) : string :=
  match s with
  | EmptyString => EmptyString
  | String c t =>
      match skip with
      | S k => replace_go old new k t
      | O =>
          if startswith old s
          then new +:+ replace_go old new (String.length old - 1) t
          else String c (replace_go old new 0 t)
      end
  end.

Definition replace_str (old new s : string) : string :=
  replace_go old new 0 s.

(** [sanitize_identifier_for_method_name(url.split("/")[-1]
    .replace(".php", "").replace("-", "_"))] *)
Definition class_name_of_url (url : string) : string :=
  Utils.sanitize
    (replace "-"%char "_" (replace_str ".php" EmptyString (last_segment url))).

End Orchestrator.

(** ** [gherkin_to_test_ai_refactored.py]: xpath quoting and the steps *)

Module TestGenerator.
Import PyStr.

(** The substitution [re.sub] of [sanitize_xpath], character by
    character: its pattern is an equals sign, a single quote, a captured
    run of characters other than the single quote, and a single quote;
    the replacement puts the run between double quotes. Outside a match,
    an equals sign followed by a quote opens a match when a closing quote
    follows somewhere; inside, the text is copied up to that closing
    quote. *)
Fixpoint requote (inside : bool) (s : string) : string :=
  match s with
  | EmptyString => EmptyString
  | String c t =>
      if inside then
        if is_char "'"%char c then String "034"%char (requote false t)
        else String c (requote true t)
      else
        match t with
        | String q t' =>
            if is_char "="%char c && is_char "'"%char q
               && Orchestrator.has_char "'"%char t'
            then String c (String "034"%char (requote true t'))
            else String c (requote false t)
        | EmptyString => String c (requote false t)
        end
  end.

(** [sanitize_xpath]: the value is [corrected_xpath]; the second regular
    expression only decides about a warning. *)
Definition sanitize_xpath (xpath : string) : string := requote false xpath.

(** [line.startswith(("Given ", "When ", "Then ", "And "))] *)
Definition is_step (line : string) : bool :=
  startswith "Given " line || startswith "When " line
  || startswith "Then " line || startswith "And " line.

(** [line.split(":", 1)[1]]: the text after the first colon; [None] is
    the [IndexError] of a line without colon. *)
Fixpoint after_colon (line : string) : option string :=
  match line with
  | EmptyString => None
  | String c t => if is_char ":"%char c then Some t else after_colon t
  end.

(** The loop that parses the Gherkin content in
    [convert_gherkin_to_test]. The state is [current_scenario] and
    [steps]; [None] stands for the [IndexError] of the title lookup. *)
Fixpoint parse_loop (lines : list string) (current_scenario : option string)
    (steps : list (option string * string))
    : option (list (option string * string)) :=
  match lines with
  | [] => Some steps
  | raw :: rest =>
      let line := strip raw in
      if startswith "Scenario:" line then
        title ← after_colon line;
        parse_loop rest (Some (Utils.sanitize (strip title))) steps
      else if is_step line then
        parse_loop rest current_scenario (steps ++ [(current_scenario, line)])
      else parse_loop rest current_scenario steps
  end.

(** What the parsing ends in: the [IndexError], the logged error of a
    content without steps (the function then returns [None]), or the
    steps. *)
Inductive parsed : Type :=
| IndexError
| NoSteps
| Steps (steps : list (option string * string)).

Definition parse_steps (gherkin_content : string) : parsed :=
  match parse_loop (splitlines gherkin_content) None [] with
  | None => IndexError
  | Some [] => NoSteps
  | Some steps => Steps steps
  end.

End TestGenerator.

(** ** [Backupcodes/pom_generator_backup.py]: the persisted records *)

Module PomArtifacts.
Import Py.

(** One element of [serializable_locators]. *)
Definition serializable (loc_item : dict) : dict :=
  <["identifier" := default (JStr "unknown_id") (loc_item !! "identifier")]>
    (<["category" := default (JStr "unknown_cat") (loc_item !! "category")]>
       (<["xpath" := default (JStr EmptyString) (loc_item !! "xpath")]>
          (<["css_selector" :=
               default (JStr EmptyString) (loc_item !! "css_selector")]> ∅))).

End PomArtifacts.

(** ** Vocabulary of the further properties *)

Module SpecX.
Import PyStr.

(** Text in which whitespace is single plain spaces; [prev] tells that
    the character before was a space. *)
Fixpoint spaced_ok (prev : bool) (s : string) : bool :=
  match s with
  | EmptyString => true
  | String c t =>
      if is_space c then is_char " "%char c && negb prev && spaced_ok true t
      else spaced_ok false t
  end.

(** Two texts of one length that differ only where the first has a
    single quote and the second a double quote. *)
Fixpoint same_but_quotes (s out : string) : bool :=
  match s, out with
  | EmptyString, EmptyString => true
  | String c t, String c' t' =>
      (bool_decide (c = c')
       || (is_char "'"%char c && is_char "034"%char c'))
      && same_but_quotes t t'
  | _, _ => false
  end.

(** A character that the sanitizer turns into a letter or digit of the
    name: a word character other than the underscore. *)
Definition is_alnum (c : ascii) : bool :=
  is_word c && negb (is_char "_"%char c).

(** [n] copies of a text. *)
Fixpoint repeat_str (n : nat) (s : string) : string :=
  match n with
  | O => EmptyString
  | S k => s +:+ repeat_str k s
  end.

(** The scenario in force after some lines, as the parsing loop of
    [convert_gherkin_to_test] tracks it. *)
Fixpoint scenario_after (lines : list string) (current : option string)
    : option string :=
  match lines with
  | [] => current
  | raw :: rest =>
      if startswith "Scenario:" (strip raw)
      then scenario_after rest
             (Some (Utils.sanitize (strip (drop 9 (strip raw)))))
      else scenario_after rest current
  end.

(** Every single quote has a backslash right before it; [prev] tells
    that the character before was a backslash. *)
Fixpoint quotes_escaped (prev : bool) (s : string) : bool :=
  match s with
  | EmptyString => true
  | String c t =>
      (negb (is_char "'"%char c) || prev)
      && quotes_escaped (is_char "092"%char c) t
  end.

(** A decoder that accepts nothing and a service that always times
    out. *)
Definition loads_nothing (s : string) : option unit := None.

Definition always_timeout : OllamaUtils.service :=
  fun _ => OllamaUtils.Timeout.

(* A record for which the accessor loop writes a method: it has a
   non-empty xpath and a category with a template. *)
Definition emits (d : Py.dict) : bool :=
  Spec.has_xpath d && Spec.recognised (Spec.category_of d).

End SpecX.

(** * Proofs *)

(** ** Character tables *)

Section CharFacts.
Import PyStr Spec.

Local Ltac by_cases c :=
  destruct c as [[|] [|] [|] [|] [|] [|] [|] [|]]; vm_compute;
  try reflexivity; try discriminate; intros; try discriminate; try reflexivity.

Lemma lower_char_fixed c : lower_fixed (lower_char c) = true.
Proof. by_cases c. Qed.

Lemma is_word_lower_char c : is_word (lower_char c) = is_word c.
Proof. by_cases c. Qed.

Lemma ascii_word_in_class c :
  is_ascii c = true -> is_word c = true -> in_class (lower_char c) = true.
Proof. by_cases c. Qed.

Lemma in_class_word c : in_class c = true -> is_word c = true.
Proof. by_cases c. Qed.

Lemma in_class_lower_fixed c : in_class c = true -> lower_fixed c = true.
Proof. by_cases c. Qed.

Lemma isdigit_word c : isdigit c = true -> is_word c = true.
Proof. by_cases c. Qed.

Lemma isdigit_not_underscore c :
  isdigit c = true -> is_char "_"%char c = false.
Proof. by_cases c. Qed.

End CharFacts.

(** ** Strings *)

Section StringFacts.
Import PyStr Spec.

Lemma all_impl (p q : ascii -> bool) s :
  (forall c, p c = true -> q c = true) -> all p s = true -> all q s = true.
Proof.
  intros Hpq. induction s as [|c t IH]; simpl; [done|].
  intros [Hc Ht]%andb_true_iff. rewrite (Hpq _ Hc). by apply IH.
Qed.

Lemma all_app p s1 s2 : all p (s1 +:+ s2) = all p s1 && all p s2.
Proof.
  induction s1 as [|c t IH]; simpl; [done|]. by rewrite IH, andb_assoc.
Qed.

Lemma lower_fixed_id s : all lower_fixed s = true -> lower s = s.
Proof.
  induction s as [|c t IH]; simpl; [done|].
  intros [Hc Ht]%andb_true_iff. unfold lower in *. simpl.
  apply bool_decide_eq_true in Hc. rewrite Hc. f_equal. by apply IH.
Qed.

Lemma is_empty_true s : is_empty s = true -> s = EmptyString.
Proof. by destruct s. Qed.

Lemma all_lstrip p q s : all q s = true -> all q (lstrip p s) = true.
Proof.
  induction s as [|c t IH]; simpl; [done|].
  intros [Hc Ht]%andb_true_iff. destruct (p c); [by apply IH|].
  simpl. by rewrite Hc, Ht.
Qed.

Lemma all_rstrip p q s : all q s = true -> all q (rstrip p s) = true.
Proof.
  induction s as [|c t IH]; simpl; [done|].
  intros [Hc Ht]%andb_true_iff. specialize (IH Ht).
  destruct (rstrip p t) as [|a r].
  - destruct (p c); simpl; [done|]. by rewrite Hc.
  - change (q c && all q (String a r) = true). by rewrite Hc, IH.
Qed.

Lemma lstrip_head p s : head_is p (lstrip p s) = false.
Proof.
  induction s as [|c t IH]; simpl; [done|].
  destruct (p c) eqn:Hc; [done|]. unfold head_is. simpl. done.
Qed.

Lemma rstrip_last p s : last_is p (rstrip p s) = false.
Proof.
  induction s as [|c t IH]; simpl; [done|].
  destruct (rstrip p t) as [|a r].
  - destruct (p c) eqn:Hc; [done|]. unfold last_is. simpl. done.
  - exact IH.
Qed.

Lemma rstrip_head p s : head_is p s = false -> head_is p (rstrip p s) = false.
Proof.
  destruct s as [|c t]; simpl; [done|]. unfold head_is. simpl. intros Hc.
  destruct (rstrip p t); [by rewrite Hc|done].
Qed.

Lemma lstrip_id p s : head_is p s = false -> lstrip p s = s.
Proof. destruct s as [|c t]; simpl; [done|]. unfold head_is. simpl. by intros ->. Qed.

Lemma rstrip_id p s : last_is p s = false -> rstrip p s = s.
Proof.
  induction s as [|c t IH]; simpl; [done|].
  destruct t as [|a t'].
  - unfold last_is. simpl. by intros ->.
  - intros H. rewrite IH; [done|exact H].
Qed.

Lemma strip_class_id p s :
  head_is p s = false -> last_is p s = false -> strip_class p s = s.
Proof.
  intros Hh Hl. unfold strip_class. rewrite (lstrip_id _ _ Hh).
  by apply rstrip_id.
Qed.

Lemma strip_class_head p s : head_is p (strip_class p s) = false.
Proof. apply rstrip_head, lstrip_head. Qed.

Lemma strip_class_last p s : last_is p (strip_class p s) = false.
Proof. apply rstrip_last. Qed.

Lemma all_strip_class p q s :
  all q s = true -> all q (strip_class p s) = true.
Proof. intros H. by apply all_rstrip, all_lstrip. Qed.

End StringFacts.

(** ** The sanitizer *)

Section SanitizerFacts.
Import PyStr Spec Utils.

Lemma sub_word_id b s : all is_word s = true -> sub_nonword_runs b s = s.
Proof.
  revert b. induction s as [|c t IH]; intros b; simpl; [done|].
  intros [Hc Ht]%andb_true_iff. rewrite Hc. f_equal. by apply IH.
Qed.

(** Substitution after lower-casing keeps every character in a class
    that holds the underscore and the lower-cased word characters. *)
Lemma all_sub_lower (p q : ascii -> bool) b s :
  (forall c, p c = true -> is_word c = true -> q (lower_char c) = true) ->
  q "_"%char = true ->
  all p s = true -> all q (sub_nonword_runs b (lower s)) = true.
Proof.
  intros Hpq Hu. revert b. induction s as [|c t IH]; intros b; [done|].
  intros [Hc Ht]%andb_true_iff. unfold lower in *. simpl.
  rewrite is_word_lower_char. destruct (is_word c) eqn:Hw.
  - simpl. rewrite (Hpq _ Hc Hw). by apply IH.
  - destruct b; simpl; [|rewrite Hu]; by apply IH.
Qed.

Lemma all_true s : all (fun _ => true) s = true.
Proof. induction s; simpl; auto. Qed.

Lemma core_stable s : all stable (core s) = true.
Proof.
  apply all_strip_class, (all_sub_lower (fun _ => true)); [|done|apply all_true].
  intros c _ Hw. unfold stable.
  by rewrite is_word_lower_char, Hw, lower_char_fixed.
Qed.

Lemma core_ascii s :
  all is_ascii s = true -> all in_class (core s) = true.
Proof.
  intros H. apply all_strip_class, (all_sub_lower is_ascii); [|done|done].
  apply ascii_word_in_class.
Qed.

Lemma sanitize_core_finish s :
  sanitize s = finish default_category (core s).
Proof.
  unfold sanitize, sanitize_identifier_for_method_name.
  destruct s as [|c t]; [by vm_compute|]. reflexivity.
Qed.

(** Re-sanitizing a stable name without outer underscores. *)
Lemma core_of_stable n :
  all stable n = true ->
  head_is (is_char "_"%char) n = false ->
  last_is (is_char "_"%char) n = false ->
  core n = n.
Proof.
  intros Hs Hh Hl. unfold core.
  rewrite lower_fixed_id.
  2:{ eapply all_impl; [|exact Hs]. by intros c [_ ?]%andb_true_iff. }
  rewrite sub_word_id.
  2:{ eapply all_impl; [|exact Hs]. by intros c [? _]%andb_true_iff. }
  by apply strip_class_id.
Qed.

Lemma core_of_prefixed n c t :
  n = String c t -> isdigit c = true ->
  all stable n = true -> last_is (is_char "_"%char) n = false ->
  core ("_" +:+ n) = n.
Proof.
  intros -> Hd Hs Hl. unfold core.
  assert (Hf : all lower_fixed (String c t) = true).
  { eapply all_impl; [|exact Hs]. by intros a [_ ?]%andb_true_iff. }
  assert (Hw : all is_word (String c t) = true).
  { eapply all_impl; [|exact Hs]. by intros a [? _]%andb_true_iff. }
  change ("_" +:+ String c t) with (String "_"%char (String c t)).
  rewrite lower_fixed_id.
  2:{ change (lower_fixed "_"%char && all lower_fixed (String c t) = true).
      by rewrite Hf. }
  rewrite sub_word_id.
  2:{ change (is_word "_"%char && all is_word (String c t) = true).
      by rewrite Hw. }
  unfold strip_class.
  change (lstrip (is_char "_"%char) (String "_"%char (String c t)))
    with (lstrip (is_char "_"%char) (String c t)).
  rewrite lstrip_id; [by apply rstrip_id|].
  unfold head_is. simpl. by apply isdigit_not_underscore.
Qed.

Lemma finish_core_fixed n :
  all stable n = true ->
  head_is (is_char "_"%char) n = false ->
  last_is (is_char "_"%char) n = false ->
  finish default_category (core (finish default_category n))
  = finish default_category n.
Proof.
  intros Hs Hh Hl. destruct n as [|c t]; [by vm_compute|].
  assert (E : finish default_category (String c t)
              = if isdigit c then "_" +:+ String c t else String c t)
    by reflexivity.
  rewrite E. destruct (isdigit c) eqn:Hd.
  - rewrite (core_of_prefixed _ c t eq_refl Hd Hs Hl). rewrite E; by rewrite ?Hd.
  - rewrite (core_of_stable _ Hs Hh Hl). rewrite E; by rewrite ?Hd.
Qed.

End SanitizerFacts.

Section SanitizerClaims.
Import PyStr Spec Utils.

(** C2. For every input string [s], sanitizing the sanitized name gives
    the sanitized name again: [sanitize (sanitize s) = sanitize s], the
    sanitizer being called with its default fallback category. *)
Theorem sanitize_idempotent s : sanitize (sanitize s) = sanitize s.
Proof.
  rewrite !sanitize_core_finish.
  apply finish_core_fixed;
    [apply core_stable|apply strip_class_head|apply strip_class_last].
Qed.

Lemma matches_of_class_plus s :
  class_plus s = true -> matches_name_pattern s = true.
Proof.
  destruct s as [|c t]; [done|]. intros H.
  destruct c as [[|] [|] [|] [|] [|] [|] [|] [|]];
    unfold matches_name_pattern; rewrite H; by rewrite ?orb_true_r.
Qed.

Lemma last_cons c a t : last (String c (String a t)) = last (String a t).
Proof. reflexivity. Qed.

(** Whatever the input, the sanitized name is not empty, holds only word
    characters that lower-casing leaves alone, does not start with a
    digit and does not end with an underscore. *)
Lemma sanitize_shape s :
  let r := sanitize s in
  is_empty r = false /\ all stable r = true
  /\ head_is isdigit r = false /\ last_is (is_char "_"%char) r = false.
Proof.
  simpl. rewrite sanitize_core_finish.
  pose proof (core_stable s) as Hs.
  pose proof (strip_class_last (is_char "_"%char)
                (sub_nonword_runs false (lower s))) as Hl.
  fold (core s) in Hl. destruct (core s) as [|c t]; [by vm_compute|].
  assert (E : finish default_category (String c t)
              = if isdigit c then "_" +:+ String c t else String c t)
    by reflexivity.
  rewrite E. destruct (isdigit c) eqn:Hd.
  - change ("_" +:+ String c t) with (String "_"%char (String c t)).
    split_and!; [done| |done|].
    + change (stable "_"%char && all stable (String c t) = true).
      by rewrite Hs.
    + unfold last_is. rewrite last_cons. exact Hl.
  - split_and!; [done|done| |done]. unfold head_is. simpl. exact Hd.
Qed.

(** C3 (amended). For every input string of ASCII characters, the empty
    string and pure-digit strings included, the sanitizer with its
    default fallback category returns a non-empty string that matches
    [^_?[a-z0-9_]+$]: only characters of [[a-z0-9_]], no digit first, no
    underscore last, and an underscore first only as the prefix put
    before a stripped name that starts with a digit. *)
Theorem sanitize_ascii_shape s :
  all is_ascii s = true ->
  let r := sanitize s in
  is_empty r = false /\ matches_name_pattern r = true
  /\ all in_class r = true
  /\ head_is isdigit r = false /\ last_is (is_char "_"%char) r = false
  /\ (head_is (is_char "_"%char) r = true ->
      r = "_" +:+ core s /\ head_is isdigit (core s) = true).
Proof.
  intros Ha. simpl.
  destruct (sanitize_shape s) as (Hne & _ & Hd & Hl).
  assert (Hc : all in_class (sanitize s) = true).
  { rewrite sanitize_core_finish. pose proof (core_ascii s Ha) as Hc.
    destruct (core s) as [|c t]; [by vm_compute|].
    assert (E : finish default_category (String c t)
                = if isdigit c then "_" +:+ String c t else String c t)
      by reflexivity.
    rewrite E. destruct (isdigit c); [|exact Hc].
    change (in_class "_"%char && all in_class (String c t) = true).
    by rewrite Hc. }
  split_and!; [done| |done|done|done|intros H; split].
  - apply matches_of_class_plus. unfold class_plus. by rewrite Hne, Hc.
  - revert H. rewrite sanitize_core_finish.
    pose proof (strip_class_head (is_char "_"%char)
                  (sub_nonword_runs false (lower s))) as Hh.
    fold (core s) in Hh. destruct (core s) as [|c t]; [by vm_compute|].
    assert (E : finish default_category (String c t)
                = if isdigit c then "_" +:+ String c t else String c t)
      by reflexivity.
    rewrite E. destruct (isdigit c); [done|]. intros H. congruence.
  - revert H. rewrite sanitize_core_finish.
    pose proof (strip_class_head (is_char "_"%char)
                  (sub_nonword_runs false (lower s))) as Hh.
    fold (core s) in Hh. destruct (core s) as [|c t]; [by vm_compute|].
    assert (E : finish default_category (String c t)
                = if isdigit c then "_" +:+ String c t else String c t)
      by reflexivity.
    rewrite E. destruct (isdigit c) eqn:Hdc.
    + intros _. unfold head_is. simpl. exact Hdc.
    + intros H. congruence.
Qed.

Lemma sanitize_ascii_shape_witness :
  all is_ascii "2 Items!" = true
  /\ let r := sanitize "2 Items!" in
     is_empty r = false /\ matches_name_pattern r = true
     /\ all in_class r = true
     /\ head_is isdigit r = false /\ last_is (is_char "_"%char) r = false
     /\ (head_is (is_char "_"%char) r = true ->
         r = "_" +:+ core "2 Items!"
         /\ head_is isdigit (core "2 Items!") = true).
Proof. split; [reflexivity|apply (sanitize_ascii_shape "2 Items!"); reflexivity]. Defined.

(** C3, as stated, fails: a letter outside ASCII is a word character, so
    the sanitizer keeps it, and the result is outside [[a-z0-9_]]. *)
Lemma sanitize_keeps_non_ascii_letter :
  sanitize (char "233") = char "233"
  /\ matches_name_pattern (sanitize (char "233")) = false.
Proof. split; reflexivity. Qed.

(** With another fallback category the fallback name takes over the
    characters of the category, lower-cased and with spaces replaced. *)
Example fallback_keeps_category_characters :
  sanitize_identifier_for_method_name "!!!" "Check-Box (new)"
  = "unnamed_check-box_(new)".
Proof. reflexivity. Qed.

Example sanitize_examples :
  sanitize "Email!" = "email" /\ sanitize "email " = "email"
  /\ sanitize EmptyString = "unnamed_element" /\ sanitize "123" = "_123"
  /\ sanitize "!!!" = "unnamed_element".
Proof. repeat split; reflexivity. Qed.

End SanitizerClaims.

(** ** Validation of the oracle's records *)

Section ValidationFacts.
Import Py Spec.

Lemma extract_step d rest seen uniq :
  LocatorExtractor.validate_loop (Object d :: rest) seen uniq
  = if negb (PyStr.is_empty (ident d)) && negb (bool_decide (ident d ∈ seen))
       && has_both d
    then LocatorExtractor.validate_loop rest ({[ident d]} ∪ seen) (uniq ++ [d])
    else LocatorExtractor.validate_loop rest seen uniq.
Proof.
  unfold ident, has_both, has_xpath, has_css. simpl.
  destruct (d !! "identifier") as [[|id]|]; try reflexivity.
  destruct (PyStr.is_empty id); [reflexivity|].
  destruct (bool_decide (id ∈ seen)); [reflexivity|].
  destruct (truthy (d !! "xpath")); [|reflexivity].
  destruct (truthy (d !! "css_selector")); reflexivity.
Qed.

Lemma pom_step d rest seen uniq :
  PomGenerator.validate_loop (Object d :: rest) seen uniq
  = if negb (PyStr.is_empty (ident d)) && negb (bool_decide (ident d ∈ seen))
       && has_either d
    then PomGenerator.validate_loop rest ({[ident d]} ∪ seen) (uniq ++ [d])
    else PomGenerator.validate_loop rest seen uniq.
Proof.
  unfold ident, has_either, has_xpath, has_css. simpl.
  destruct (d !! "identifier") as [[|id]|]; try reflexivity.
  destruct (PyStr.is_empty id); [reflexivity|].
  destruct (bool_decide (id ∈ seen)); [reflexivity|].
  destruct (truthy (d !! "xpath")); [reflexivity|].
  destruct (truthy (d !! "css_selector")); reflexivity.
Qed.

Lemma extract_validate_kept ds seen uniq :
  exists seen',
    LocatorExtractor.validate_loop (Object <$> ds) seen uniq
    = Ok (seen', uniq ++ kept has_both seen ds).
Proof.
  revert seen uniq. induction ds as [|d rest IH]; intros seen uniq.
  - exists seen. simpl. by rewrite app_nil_r.
  - rewrite fmap_cons, extract_step. simpl kept.
    destruct (_ && _); [|apply IH].
    destruct (IH ({[ident d]} ∪ seen) (uniq ++ [d])) as [seen' ->].
    exists seen'. by rewrite <- app_assoc.
Qed.

Lemma pom_validate_kept ds seen uniq :
  exists seen',
    PomGenerator.validate_loop (Object <$> ds) seen uniq
    = (seen', uniq ++ kept has_either seen ds).
Proof.
  revert seen uniq. induction ds as [|d rest IH]; intros seen uniq.
  - exists seen. simpl. by rewrite app_nil_r.
  - rewrite fmap_cons, pom_step. simpl kept.
    destruct (_ && _); [|apply IH].
    destruct (IH ({[ident d]} ∪ seen) (uniq ++ [d])) as [seen' ->].
    exists seen'. by rewrite <- app_assoc.
Qed.

Section Kept.
Variable usable : dict -> bool.

Lemma kept_cons seen d rest :
  kept usable seen (d :: rest)
  = if negb (PyStr.is_empty (ident d)) && negb (bool_decide (ident d ∈ seen))
       && usable d
    then d :: kept usable ({[ident d]} ∪ seen) rest
    else kept usable seen rest.
Proof. reflexivity. Qed.

(** A kept record is an input record that passes the three tests. *)
Lemma kept_sound seen ds d :
  d ∈ kept usable seen ds ->
  d ∈ ds /\ usable d = true /\ PyStr.is_empty (ident d) = false
  /\ ident d ∉ seen.
Proof.
  revert seen. induction ds as [|x rest IH]; intros seen; [by intros ?%elem_of_nil|].
  rewrite kept_cons.
  destruct (PyStr.is_empty (ident x)) eqn:He; simpl.
  { intros (? & ? & ? & ?)%IH. split_and!; try done. by right. }
  destruct (bool_decide (ident x ∈ seen)) eqn:Hs; simpl.
  { intros (? & ? & ? & ?)%IH. split_and!; try done. by right. }
  destruct (usable x) eqn:Hu; simpl.
  - intros [->|Hd]%elem_of_cons.
    + apply bool_decide_eq_false in Hs. split_and!; try done. by left.
    + apply IH in Hd as (? & ? & ? & Hn). split_and!; try done; [by right|].
      intros Hin. apply Hn, elem_of_union. by right.
  - intros (? & ? & ? & ?)%IH. split_and!; try done. by right.
Qed.

Lemma kept_sublist seen ds : sublist (kept usable seen ds) ds.
Proof.
  revert seen. induction ds as [|x rest IH]; intros seen; [done|].
  rewrite kept_cons.
  destruct (_ && _); [by apply sublist_skip|by apply sublist_cons].
Qed.

Lemma kept_NoDup seen ds : NoDup (ident <$> kept usable seen ds).
Proof.
  revert seen. induction ds as [|x rest IH]; intros seen; [constructor|].
  rewrite kept_cons. destruct (_ && _); [|apply IH].
  rewrite fmap_cons. constructor; [|apply IH].
  intros (d & Hd & Hin)%list_elem_of_fmap.
  apply kept_sound in Hin as (_ & _ & _ & Hn). set_solver.
Qed.

(** The first record of an identifier that passes the locator test is
    kept. *)
Lemma kept_first seen pre d post :
  PyStr.is_empty (ident d) = false -> ident d ∉ seen -> usable d = true ->
  (forall d', d' ∈ pre -> ident d' = ident d -> usable d' = false) ->
  d ∈ kept usable seen (pre ++ d :: post).
Proof.
  intros He Hs Hu. revert seen Hs.
  induction pre as [|x pre IH]; intros seen Hs Hpre.
  - simpl app. rewrite kept_cons, He, Hu.
    rewrite (bool_decide_eq_false_2 _ Hs). simpl. by left.
  - simpl app. rewrite kept_cons.
    assert (Hrest : forall d', d' ∈ pre -> ident d' = ident d -> usable d' = false).
    { intros d' Hd'. apply Hpre. by right. }
    destruct (_ && _) eqn:Hx; [|by apply IH].
    right. apply IH; [|done].
    apply andb_true_iff in Hx as [_ Hux].
    intros [Heq%elem_of_singleton|?]%elem_of_union; [|done].
    rewrite (Hpre x) in Hux; [done|by left|done].
Qed.

(** No record with the same identifier that passes the locator test
    comes before a kept record. *)
Lemma kept_is_first seen ds d :
  d ∈ kept usable seen ds ->
  exists pre post,
    ds = pre ++ d :: post
    /\ forall d', d' ∈ pre -> ident d' = ident d -> usable d' = false.
Proof.
  revert seen. induction ds as [|x rest IH]; intros seen; [by intros ?%elem_of_nil|].
  rewrite kept_cons. destruct (_ && _) eqn:Hx.
  - intros [->|Hd]%elem_of_cons.
    + exists [], rest. split; [done|]. by intros d' ?%elem_of_nil.
    + pose proof (kept_sound _ _ _ Hd) as (_ & _ & _ & Hn).
      apply IH in Hd as (pre & post & -> & Hpre).
      exists (x :: pre), post. split; [done|].
      intros d' [->|Hd']%elem_of_cons Heq; [|by apply Hpre].
      set_solver.
  - intros Hd. pose proof (kept_sound _ _ _ Hd) as (_ & _ & He & Hn).
    apply IH in Hd as (pre & post & -> & Hpre).
    exists (x :: pre), post. split; [done|].
    intros d' [->|Hd']%elem_of_cons Heq; [|by apply Hpre].
    rewrite Heq, He in Hx. simpl in Hx.
    rewrite (bool_decide_eq_false_2 _ Hn) in Hx. simpl in Hx. exact Hx.
Qed.

End Kept.

End ValidationFacts.

Section ValidationClaims.
Import Py Spec.

Lemma extract_locators_kept d0 ds :
  LocatorExtractor.extract_locators (LocatorExtractor.PList (Object <$> (d0 :: ds)))
  = Ok (kept has_both ∅ (d0 :: ds)).
Proof.
  rewrite fmap_cons. unfold LocatorExtractor.extract_locators.
  rewrite <- (fmap_cons Object).
  destruct (extract_validate_kept (d0 :: ds) ∅ []) as [seen' ->].
  reflexivity.
Qed.

(** C1 (amended). In the validation of [extract_locators], run on an
    array of objects, an entry whose identifier is non-empty and not seen
    before is accepted exactly when both its xpath and its css_selector
    are non-empty; it is dropped as soon as one of the two is empty. *)
Theorem extract_accepts_iff_both pre d post :
  PyStr.is_empty (ident d) = false ->
  (forall d', d' ∈ pre -> ident d' ≠ ident d) ->
  exists out,
    LocatorExtractor.extract_locators
      (LocatorExtractor.PList (Object <$> (pre ++ d :: post))) = Ok out
    /\ (d ∈ out <-> has_xpath d = true /\ has_css d = true).
Proof.
  intros He Hpre. exists (kept has_both ∅ (pre ++ d :: post)). split.
  - destruct pre; apply extract_locators_kept.
  - split.
    + intros (_ & Hu & _)%kept_sound. by apply andb_true_iff in Hu.
    + intros [Hx Hc]. apply kept_first; [done|set_solver| |].
      * unfold has_both. by rewrite Hx, Hc.
      * intros d' Hd' Heq. by destruct (Hpre d' Hd').
Qed.

Lemma extract_accepts_iff_both_witness :
  let d := record "user" "input_field" "//input" "input#user" in
  PyStr.is_empty (ident d) = false
  /\ (forall d', d' ∈ [record "go" "button" "//button" "button"] ->
      ident d' ≠ ident d)
  /\ exists out,
       LocatorExtractor.extract_locators
         (LocatorExtractor.PList
            (Object <$> ([record "go" "button" "//button" "button"]
                         ++ d :: []))) = Ok out
       /\ (d ∈ out <-> has_xpath d = true /\ has_css d = true).
Proof.
  assert (Hpre : forall d', d' ∈ [record "go" "button" "//button" "button"] ->
                 ident d' ≠ ident (record "user" "input_field" "//input" "input#user")).
  { intros d' Hd'%list_elem_of_singleton. subst d'. discriminate. }
  split; [reflexivity|]. split; [exact Hpre|].
  exact (extract_accepts_iff_both
           [record "go" "button" "//button" "button"]
           (record "user" "input_field" "//input" "input#user") []
           eq_refl Hpre).
Defined.

(** C1, as stated, fails in [extract_locators]: a record with a fresh
    non-empty identifier and a non-empty xpath is dropped because its
    css_selector is empty. *)
Lemma extract_drops_record_without_css :
  let d := record "x" "button" "//a" EmptyString in
  PyStr.is_empty (ident d) = false /\ has_xpath d = true
  /\ LocatorExtractor.extract_locators (LocatorExtractor.PList [Object d])
     = Ok [].
Proof. repeat split. Qed.

(** The validation of [generate_pom] is the one that drops an entry only
    when both locators are empty. *)
Lemma pom_accepts_iff_either pre d post :
  PyStr.is_empty (ident d) = false ->
  (forall d', d' ∈ pre -> ident d' ≠ ident d) ->
  d ∈ (PomGenerator.validate_loop (Object <$> (pre ++ d :: post)) ∅ []).2
  <-> has_xpath d = true \/ has_css d = true.
Proof.
  intros He Hpre.
  destruct (pom_validate_kept (pre ++ d :: post) ∅ []) as [seen' ->].
  simpl. split.
  - intros (_ & Hu & _)%kept_sound. by apply orb_true_iff in Hu.
  - intros Hu. apply kept_first; [done|set_solver|by apply orb_true_iff|].
    intros d' Hd' Heq. by destruct (Hpre d' Hd').
Qed.

(** C5 (amended). Of the records that carry one identifier,
    [extract_locators] accepts at most one: the first that has both an
    xpath and a css_selector; the accepted records keep the order of the
    input. In particular the input of two records with identifier x,
    xpaths //a and //b and css selectors a and b gives exactly the first
    record. *)
Theorem extract_first_usable_wins :
  (forall d0 ds, exists out,
     LocatorExtractor.extract_locators
       (LocatorExtractor.PList (Object <$> (d0 :: ds))) = Ok out
     /\ sublist out (d0 :: ds)
     /\ NoDup (ident <$> out)
     /\ (forall d, d ∈ out ->
         has_both d = true
         /\ exists pre post,
              d0 :: ds = pre ++ d :: post
              /\ forall d', d' ∈ pre -> ident d' = ident d ->
                            has_both d' = false)
     /\ (forall pre d post,
         d0 :: ds = pre ++ d :: post ->
         PyStr.is_empty (ident d) = false -> has_both d = true ->
         (forall d', d' ∈ pre -> ident d' = ident d -> has_both d' = false) ->
         d ∈ out))
  /\ LocatorExtractor.extract_locators
       (LocatorExtractor.PList
          [Object (record "x" "button" "//a" "a");
           Object (record "x" "button" "//b" "b")])
     = Ok [record "x" "button" "//a" "a"].
Proof.
  split; [|reflexivity].
  intros d0 ds. exists (kept has_both ∅ (d0 :: ds)).
  split; [apply extract_locators_kept|].
  split; [apply kept_sublist|]. split; [apply kept_NoDup|]. split.
  - intros d Hd. split; [by apply kept_sound in Hd as (_ & ? & _)|].
    by apply kept_is_first in Hd.
  - intros pre d post -> He Hu Hpre. apply kept_first; [done|set_solver|done|done].
Qed.

Lemma extract_first_usable_wins_witness :
  let d0 := record "x" "button" "//a" EmptyString in
  let d := record "x" "button" "//b" "b" in
  PyStr.is_empty (ident d) = false /\ has_both d = true
  /\ (forall d', d' ∈ [d0] -> ident d' = ident d -> has_both d' = false)
  /\ exists out,
       LocatorExtractor.extract_locators
         (LocatorExtractor.PList (Object <$> (d0 :: [d]))) = Ok out
       /\ d ∈ out.
Proof.
  intros d0 d.
  assert (Hpre : forall d', d' ∈ [d0] -> ident d' = ident d ->
                            has_both d' = false).
  { intros d' Hd'%list_elem_of_singleton _. by subst d'. }
  split; [reflexivity|]. split; [reflexivity|]. split; [exact Hpre|].
  destruct (proj1 extract_first_usable_wins d0 [d])
    as (out & Heq & _ & _ & _ & Hin).
  exists out. split; [exact Heq|].
  exact (Hin [d0] d [] eq_refl eq_refl eq_refl Hpre).
Defined.

(** C5, as stated, fails in [extract_locators]: the two records of the
    claim carry no css_selector, so neither is accepted; and a later
    record is accepted when the earlier one with its identifier was
    dropped. *)
Lemma extract_claimed_example_empty :
  let a := <["identifier" := JStr "x"]> (<["xpath" := JStr "//a"]> ∅) in
  let b := <["identifier" := JStr "x"]> (<["xpath" := JStr "//b"]> ∅) in
  LocatorExtractor.extract_locators (LocatorExtractor.PList [Object a; Object b])
  = Ok []
  /\ LocatorExtractor.extract_locators
       (LocatorExtractor.PList
          [Object (record "x" "button" "//a" EmptyString);
           Object (record "x" "button" "//b" "b")])
     = Ok [record "x" "button" "//b" "b"].
Proof. split; reflexivity. Qed.

End ValidationClaims.

(** ** Accessor names *)

Section NameFacts.
Import Py Spec.

Lemma str_length_app s1 s2 :
  String.length (s1 +:+ s2) = String.length s1 + String.length s2.
Proof.
  induction s1 as [|c t IH]; [done|].
  change (String c t +:+ s2) with (String c (t +:+ s2)). simpl. by rewrite IH.
Qed.

Lemma str_app_assoc a b c : (a +:+ b) +:+ c = a +:+ (b +:+ c).
Proof.
  induction a as [|x a IH]; [done|].
  change (String x ((a +:+ b) +:+ c) = String x (a +:+ (b +:+ c))).
  by rewrite IH.
Qed.

Lemma str_app_cons x a b : String x a +:+ b = String x (a +:+ b).
Proof. reflexivity. Qed.

Lemma startswith_app p s : PyStr.startswith p (p +:+ s) = true.
Proof.
  induction p as [|x p IH]; [done|]. rewrite str_app_cons. simpl.
  by rewrite bool_decide_eq_true_2, IH.
Qed.

Lemma candidate_inj base j k : candidate base j = candidate base k -> j = k.
Proof.
  destruct j as [|j], k as [|k]; simpl; [done| | |].
  - intros H. apply (f_equal String.length) in H.
    rewrite !str_length_app in H. cbn in H. lia.
  - intros H. apply (f_equal String.length) in H.
    rewrite !str_length_app in H. cbn in H. lia.
  - intros H%(inj (String.app base))%(inj (String.app "_")).
    by apply (inj pretty) in H.
Qed.

(** As many distinct candidates in a set as its size allows. *)
Lemma candidates_in_size base (G : gset string) n :
  (forall j, j < n -> candidate base j ∈ G) -> n ≤ size G.
Proof.
  intros Hin.
  assert (Hnd : NoDup (candidate base <$> seq 0 n)).
  { apply NoDup_fmap_2_strong; [|apply NoDup_seq].
    intros j k _ _. apply candidate_inj. }
  assert (Hsz : size (list_to_set (C:=gset string) (candidate base <$> seq 0 n))
                = n).
  { rewrite size_list_to_set by done. by rewrite length_fmap, length_seq. }
  rewrite <- Hsz at 1. apply subseteq_size. intros x (j & -> & Hj%elem_of_seq)%elem_of_list_to_set%list_elem_of_fmap.
  apply Hin. lia.
Qed.

Lemma resolve_loop_spec base (G : gset string) fuel k :
  (forall j, j < k -> candidate base j ∈ G) ->
  size G ≤ k + fuel ->
  exists k',
    PomGenerator.resolve_loop fuel base G (candidate base k) (S k)
    = Some (candidate base k')
    /\ (candidate base k' ∉ G)
    /\ forall j, j < k' -> candidate base j ∈ G.
Proof.
  revert k. induction fuel as [|fuel IH]; intros k Hk Hsize; simpl.
  - case_bool_decide as Hin.
    + assert (S k ≤ size G); [|lia].
      apply (candidates_in_size base). intros j Hj.
      destruct (decide (j = k)) as [->|]; [done|]. apply Hk. lia.
    + by exists k.
  - case_bool_decide as Hin; [|by exists k].
    apply (IH (S k)); [|lia]. intros j Hj.
    destruct (decide (j = k)) as [->|]; [done|]. apply Hk. lia.
Qed.

(** The loop always ends with a name: the first candidate that is not
    yet in the set. *)
Lemma resolve_name_spec base (G : gset string) :
  exists k,
    PomGenerator.resolve_name base G = Some (candidate base k)
    /\ (candidate base k ∉ G)
    /\ forall j, j < k -> candidate base j ∈ G.
Proof.
  apply (resolve_loop_spec base G (size G) 0); [lia|lia].
Qed.

Lemma method_step_spec d (G : gset string) :
  PomGenerator.method_step d G
  = name ← PomGenerator.resolve_name (method_name_base d) G;
    Some (name, emitted (d, name)).
Proof.
  unfold PomGenerator.method_step, emitted, has_xpath, escaped_xpath.
  fold (category_of d). fold (method_name_base d).
  destruct (PomGenerator.resolve_name _ _) as [name|]; [|done].
  simpl. by destruct (d !! "xpath") as [[|[|c s]]|].
Qed.

Lemma methods_loop_spec items (G : gset string) names content :
  (forall n, n ∈ names -> n ∈ G) -> NoDup names ->
  exists G' got,
    PomGenerator.methods_loop items G names content
    = Some (G', names ++ got, content ++ omap emitted (zip items got))
    /\ length got = length items
    /\ NoDup (names ++ got)
    /\ (forall n, n ∈ names ++ got -> n ∈ G')
    /\ Forall2 (fun d n => exists k, n = candidate (method_name_base d) k)
         items got.
Proof.
  revert G names content.
  induction items as [|d rest IH]; intros G names content Hin Hnd.
  - exists G, []. simpl. rewrite !app_nil_r. by split_and!.
  - simpl. rewrite method_step_spec.
    destruct (resolve_name_spec (method_name_base d) G) as (k & -> & Hk & _).
    simpl.
    destruct (IH ({[candidate (method_name_base d) k]} ∪ G)
                (names ++ [candidate (method_name_base d) k])
                (match emitted (d, candidate (method_name_base d) k) with
                 | Some text => content ++ [text]
                 | None => content
                 end))
      as (G' & got & -> & Hlen & Hnd' & Hin' & Hall).
    { intros n [?|Hn%list_elem_of_singleton]%elem_of_app;
        apply elem_of_union; [right; by apply Hin|left].
      by apply elem_of_singleton. }
    { apply NoDup_app. split_and!; [done| |apply NoDup_singleton].
      intros n Hn Heq%list_elem_of_singleton. subst n. by apply Hk, Hin. }
    exists G', (candidate (method_name_base d) k :: got).
    rewrite <- !app_assoc in *. simpl in *. split_and!; try done.
    + do 2 f_equal. by destruct (emitted _); rewrite <- ?app_assoc.
    + by rewrite Hlen.
    + constructor; [by exists k|done].
Qed.

(** Records that share one base receive the candidates in order. *)
Lemma methods_loop_same_base b items k names content :
  Forall (fun d => method_name_base d = b) items ->
  exists G' content',
    PomGenerator.methods_loop items
      (list_to_set (candidate b <$> seq 0 k)) names content
    = Some (G', names ++ (candidate b <$> seq k (length items)), content').
Proof.
  revert k names content.
  induction items as [|d rest IH]; intros k names content Hb.
  - eexists _, _. simpl. by rewrite app_nil_r.
  - apply Forall_cons in Hb as [Hd Hrest]. simpl.
    rewrite method_step_spec, Hd.
    destruct (resolve_name_spec b (list_to_set (candidate b <$> seq 0 k)))
      as (k' & -> & Hk' & Hlt).
    assert (k' = k) as ->.
    { destruct (decide (k' < k)) as [Hl|Hl].
      - exfalso. apply Hk', elem_of_list_to_set, list_elem_of_fmap.
        exists k'. split; [done|]. apply elem_of_seq. lia.
      - destruct (decide (k < k')) as [Hg|Hg]; [|lia].
        apply Hlt in Hg.
        apply elem_of_list_to_set, list_elem_of_fmap in Hg
          as (j & Hj%candidate_inj & Hjs%elem_of_seq). lia. }
    simpl.
    assert (Hset : {[candidate b k]} ∪ list_to_set (candidate b <$> seq 0 k)
                   = list_to_set (C:=gset string) (candidate b <$> seq 0 (S k))).
    { rewrite seq_S, fmap_app, list_to_set_app_L. simpl.
      by rewrite (right_id_L ∅ (∪)), (comm_L (∪)). }
    rewrite Hset.
    destruct (IH (S k) (names ++ [candidate b k])
                (match emitted (d, candidate b k) with
                 | Some text => content ++ [text]
                 | None => content
                 end) Hrest) as (G' & content' & ->).
    exists G', content'. by rewrite <- app_assoc.
Qed.

Lemma methods_loop_names items names content :
  exists got content',
    PomGenerator.methods_loop items (list_to_set names) names content
    = Some (list_to_set (names ++ got), names ++ got, content')
    /\ length got = length items
    /\ forall i d, items !! i = Some d ->
         exists k,
           got !! i = Some (candidate (method_name_base d) k)
           /\ (candidate (method_name_base d) k ∉ names ++ take i got)
           /\ forall j, j < k ->
                candidate (method_name_base d) j ∈ names ++ take i got.
Proof.
  revert names content.
  induction items as [|d rest IH]; intros names content.
  - exists [], content. rewrite app_nil_r. split_and!; [done|done|].
    by intros i d ?.
  - simpl. rewrite method_step_spec.
    destruct (resolve_name_spec (method_name_base d)
                (list_to_set names : gset string)) as (k & -> & Hk & Hlt).
    simpl.
    assert (Hset : {[candidate (method_name_base d) k]} ∪ list_to_set names
                   = list_to_set (C:=gset string)
                       (names ++ [candidate (method_name_base d) k])).
    { rewrite list_to_set_app_L. simpl.
      by rewrite (right_id_L ∅ (∪)), (comm_L (∪)). }
    rewrite Hset.
    destruct (IH (names ++ [candidate (method_name_base d) k])
                (match emitted (d, candidate (method_name_base d) k) with
                 | Some text => content ++ [text]
                 | None => content
                 end)) as (got & content' & -> & Hlen & Hall).
    exists (candidate (method_name_base d) k :: got), content'.
    rewrite <- !app_assoc. simpl. split_and!; [done|by rewrite Hlen|].
    intros [|i] d' Hd'; simpl in Hd'.
    + injection Hd' as <-. exists k. simpl. rewrite app_nil_r.
      split_and!; [done| |].
      * intros Hin. by apply Hk, elem_of_list_to_set.
      * intros j Hj. specialize (Hlt j Hj).
        by apply elem_of_list_to_set in Hlt.
    + destruct (Hall i d' Hd') as (k' & Hg & Hnot & Hin).
      exists k'. simpl. rewrite <- !app_assoc in Hnot, Hin. simpl in Hnot, Hin.
      by split_and!.
Qed.

Lemma def_line_starts verb name params rest :
  PyStr.startswith ("    def " +:+ (verb +:+ name) +:+ "(")
    (PomGenerator.def_line verb name params +:+ rest) = true.
Proof.
  assert (E : PomGenerator.def_line verb name params +:+ rest
              = ("    def " +:+ (verb +:+ name) +:+ "(")
                +:+ (params +:+ "):" +:+ PyStr.nl +:+ rest)).
  { unfold PomGenerator.def_line. by rewrite !str_app_assoc. }
  rewrite E. apply startswith_app.
Qed.

(** The [def] line of an emitted method declares the verb of the
    category followed by the name part; no method without xpath or
    without a template. *)
Lemma emitted_method_name d name :
  match method_name (d, name) with
  | Some m =>
      exists text,
        emitted (d, name) = Some text
        /\ PyStr.startswith ("    def " +:+ m +:+ "(") text = true
  | None => emitted (d, name) = None
  end.
Proof.
  unfold method_name, emitted, verb_prefix, PomGenerator.method_for.
  cbn [fst snd]. destruct (has_xpath d); [|done].
  repeat case_bool_decide; cbn [fmap option_fmap option_map];
    try (eexists; split; [reflexivity|]; apply def_line_starts).
  done.
Qed.

End NameFacts.

Section AccessorClaims.
Import Py Spec.

(** C6 (amended). The accessor loop always ends and gives every record
    of the page, in order, a name part: the first of base, base_1,
    base_2, ... that no earlier record of the page was given, base being
    the sanitized identifier. So the name parts of one page are pairwise
    distinct, and records that all sanitize to one base receive base,
    base_1, base_2, ... in order. A method is emitted exactly for a
    record with a non-empty xpath and a category that has a template,
    and its [def] line declares the verb of the category followed by
    the name part: the method names of records with one verb are
    pairwise distinct. *)
Theorem accessor_names_distinct items :
  exists G names content,
    PomGenerator.methods_loop items ∅ [] [] = Some (G, names, content)
    /\ length names = length items
    /\ NoDup names
    /\ (forall i d, items !! i = Some d ->
        exists k,
          names !! i = Some (candidate (method_name_base d) k)
          /\ (candidate (method_name_base d) k ∉ take i names)
          /\ forall j, j < k ->
               candidate (method_name_base d) j ∈ take i names)
    /\ (forall b, Forall (fun d => method_name_base d = b) items ->
                  names = candidate b <$> seq 0 (length items))
    /\ content = omap emitted (zip items names)
    /\ (forall d name,
        match method_name (d, name) with
        | Some m =>
            exists text,
              emitted (d, name) = Some text
              /\ PyStr.startswith ("    def " +:+ m +:+ "(") text = true
        | None => emitted (d, name) = None
        end)
    /\ (forall i j d d' n n' m m',
        i ≠ j ->
        items !! i = Some d -> items !! j = Some d' ->
        names !! i = Some n -> names !! j = Some n' ->
        verb_prefix (category_of d) = verb_prefix (category_of d') ->
        method_name (d, n) = Some m -> method_name (d', n') = Some m' ->
        m ≠ m').
Proof.
  destruct (methods_loop_spec items ∅ [] [])
    as (G & got & Heq & Hlen & Hnd & _ & _);
    [by intros n ?%elem_of_nil|constructor|].
  exists G, got, (omap emitted (zip items got)).
  split_and!; [done|done|done| | |done|apply emitted_method_name|].
  - destruct (methods_loop_names items [] [])
      as (got' & content' & Heq' & _ & Hfirst).
    change (list_to_set []) with (∅ : gset string) in Heq'.
    rewrite Heq in Heq'. injection Heq' as _ <- _. exact Hfirst.
  - intros b Hb.
    destruct (methods_loop_same_base b items 0 [] [] Hb) as (G' & c' & Hsame).
    change (list_to_set (candidate b <$> seq 0 0)) with (∅ : gset string)
      in Hsame.
    rewrite Heq in Hsame. by injection Hsame as _ -> _.
  - intros i j d d' n n' m m' Hij _ _ Hn Hn' Hv Hm Hm' <-.
    unfold method_name in Hm, Hm'. cbn [fst snd] in Hm, Hm'.
    destruct (has_xpath d); [|done]. destruct (has_xpath d'); [|done].
    rewrite <- Hv in Hm'.
    destruct (verb_prefix (category_of d)) as [verb|]; [|done].
    simpl in Hm, Hm'. injection Hm as <-.
    injection Hm' as Hm'%(inj (String.app verb)). subst n'.
    apply Hij. by apply (NoDup_lookup got i j n).
Qed.

Lemma accessor_names_distinct_witness :
  let items := [record "Email!" "button" "//a" "a";
                record "email " "button" "//b" "b"] in
  Forall (fun d => method_name_base d = "email") items
  /\ exists G,
       PomGenerator.methods_loop items ∅ [] []
       = Some (G, ["email"; "email_1"],
               [PomGenerator.button_method "email" "//a";
                PomGenerator.button_method "email_1" "//b"]).
Proof.
  intros items.
  assert (Hb : Forall (fun d => method_name_base d = "email") items)
    by (repeat constructor).
  split; [exact Hb|].
  destruct (accessor_names_distinct items)
    as (G & names & content & Heq & _ & _ & _ & Hsame & Hcontent & _).
  exists G. rewrite Heq, Hcontent, (Hsame "email" Hb). reflexivity.
Defined.

(** C6, as stated, fails. The second of two records with one base gets
    the first free suffix, which is not [_1] when an earlier record
    already has that name; and the method names, verb included, of two
    records of different categories can be the same. *)
Lemma second_suffix_and_method_names_can_differ_from_claim :
  (let items := [record "a_1" "button" "//x" "x";
                 record "a" "button" "//y" "y";
                 record "A" "button" "//z" "z"] in
   Forall (fun d => method_name_base d = "a") (drop 1 items)
   /\ exists G content,
        PomGenerator.methods_loop items ∅ [] []
        = Some (G, ["a_1"; "a"; "a_2"], content))
  /\ (let r := record "option_from_x" "radio" "//r" "r" in
      let s := record "x" "dropdown" "//s" "s" in
      (exists G content,
         PomGenerator.methods_loop [r; s] ∅ [] []
         = Some (G, ["option_from_x"; "x"], content))
      /\ method_name (r, "option_from_x") = Some "select_option_from_x"
      /\ method_name (s, "x") = Some "select_option_from_x").
Proof.
  split.
  - split; [repeat constructor|]. eexists _, _. reflexivity.
  - split_and!; [|reflexivity|reflexivity]. eexists _, _. reflexivity.
Qed.

(** A record without xpath is usable when it has a css selector: it
    uses up a name and emits no method, so two usable records with one
    base can leave one method only. *)
Example css_only_record_uses_up_a_name :
  exists G,
    PomGenerator.methods_loop
      [record "Email!" "input_field" EmptyString "#e";
       record "email " "input_field" "//e" "#e"] ∅ [] []
    = Some (G, ["email"; "email_1"],
            [PomGenerator.input_field_method "email_1" "//e"]).
Proof. eexists. reflexivity. Qed.

Lemma not_recognised c :
  recognised c = false ->
  c ≠ JStr "input_field" /\ c ≠ JStr "button" /\ c ≠ JStr "checkbox"
  /\ c ≠ JStr "dropdown" /\ c ≠ JStr "radio".
Proof.
  intros H%bool_decide_eq_false.
  split_and!; intros ->; apply H;
    repeat first [apply list_elem_of_here | apply list_elem_of_further].
Qed.




Example two_record_page :
  exists G,
    PomGenerator.methods_loop
      [record "username" "input_field" "//input[@id='u']" "#u";
       record "submit" "button" "//button" "button"] ∅ [] []
    = Some (G, ["username"; "submit"],
            [PomGenerator.input_field_method "username" "//input[@id=\'u\']";
             PomGenerator.button_method "submit" "//button"]).
Proof. eexists. reflexivity. Qed.

End AccessorClaims.

(** ** The oracle helpers *)

Section OracleFacts.
Import Py Spec OllamaUtils.

Lemma strip_nonempty s :
  PyStr.is_empty (PyStr.strip s) = false -> PyStr.is_empty s = false.
Proof. by destruct s. Qed.

Lemma query_result_some x text :
  query_result x = Ok (Some text) ->
  response_text x = Some text /\ PyStr.is_empty (PyStr.strip text) = false.
Proof.
  destruct x as [| | | |[|d]]; simpl; try done.
  destruct (d !! "response") as [[|s]|]; simpl; [done| |done].
  destruct (PyStr.is_empty (PyStr.strip s)) eqn:Hs; [done|].
  by intros [= ->].
Qed.

Context {J : Type}.
Variable json_loads : string -> option J.
Variable svc : service.

Lemma attempts_loop_cons n attempt rest prompt sent :
  attempts_loop json_loads svc n (attempt :: rest) prompt sent
  = match query_result (svc (sent ++ [prompt])) with
    | Raise e => (Raise e, sent ++ [prompt])
    | Ok None =>
        attempts_loop json_loads svc n rest prompt (sent ++ [prompt])
    | Ok (Some response) =>
        match json_loads (PyStr.strip response) with
        | Some parsed => (Ok (Some parsed), sent ++ [prompt])
        | None =>
            attempts_loop json_loads svc n rest
              (if attempt <? n - 1 then prompt +:+ directive else prompt)
              (sent ++ [prompt])
        end
    end.
Proof.
  simpl. unfold query_ollama.
  destruct (query_result (svc (sent ++ [prompt]))) as [[text|]|e] eqn:Hq;
    try reflexivity.
  apply query_result_some in Hq as [_ Hs%strip_nonempty]. by rewrite Hs.
Qed.

(** The trace of the attempts from one point of the loop on. *)
Lemma attempts_trace n m a prompt sent0 :
  a + m = n ->
  exists r got,
    attempts_loop json_loads svc n (seq a m) prompt sent0 = (r, sent0 ++ got)
    /\ length got ≤ m
    /\ (0 < m -> got !! 0 = Some prompt)
    /\ (forall i q q', got !! i = Some q -> got !! S i = Some q' ->
        retry_step json_loads svc (sent0 ++ take (S i) got) q q')
    /\ (forall j, r = Ok (Some j) ->
        exists text, query_result (svc (sent0 ++ got)) = Ok (Some text)
                     /\ json_loads (PyStr.strip text) = Some j)
    /\ (r = Ok None -> length got = m)
    /\ (forall e, r = Raise e -> query_result (svc (sent0 ++ got)) = Raise e).
Proof.
  revert a prompt sent0.
  induction m as [|m IH]; intros a prompt sent0 Hn.
  { exists (Ok None), []. rewrite app_nil_r.
    split_and!; try done. intros H. inversion H. }
  rewrite <- cons_seq, attempts_loop_cons.
  assert (Hcons : forall prompt' r got',
    attempts_loop json_loads svc n (seq (S a) m) prompt' (sent0 ++ [prompt])
    = (r, (sent0 ++ [prompt]) ++ got') ->
    length got' ≤ m ->
    (0 < m -> got' !! 0 = Some prompt') ->
    (got' ≠ [] -> retry_step json_loads svc (sent0 ++ [prompt]) prompt prompt') ->
    (forall i q q', got' !! i = Some q -> got' !! S i = Some q' ->
       retry_step json_loads svc ((sent0 ++ [prompt]) ++ take (S i) got') q q') ->
    length (prompt :: got') ≤ S m
    /\ (0 < S m -> (prompt :: got') !! 0 = Some prompt)
    /\ (forall i q q', (prompt :: got') !! i = Some q ->
          (prompt :: got') !! S i = Some q' ->
          retry_step json_loads svc (sent0 ++ take (S i) (prompt :: got')) q q')).
  { intros prompt' r got' _ Hlen Hhead Hfirst Hchain. split_and!.
    - simpl. lia.
    - done.
    - intros [|i] q q' Hq Hq'; simpl in Hq, Hq'.
      + injection Hq as <-.
        assert (Hne : got' ≠ []) by (by destruct got').
        assert (Hm : 0 < m) by (destruct got'; [done|simpl in Hlen; lia]).
        rewrite (Hhead Hm) in Hq'. injection Hq' as <-. simpl take.
        by apply Hfirst.
      + simpl take. rewrite (cons_middle prompt sent0), app_assoc.
        by apply Hchain. }
  destruct (query_result (svc (sent0 ++ [prompt]))) as [[text|]|e] eqn:Hq.
  - destruct (json_loads (PyStr.strip text)) as [j|] eqn:Hj.
    + exists (Ok (Some j)), [prompt].
      split_and!;
        [done|simpl; lia|done|by intros [|i] q q' ? ?| |done|done].
      intros j' [= <-]. by exists text.
    + destruct (IH (S a) (if a <? n - 1 then prompt +:+ directive else prompt)
                  (sent0 ++ [prompt]) ltac:(lia))
        as (r & got' & Heq & Hlen & Hhead & Hchain & Hok & Hnone & Hraise).
      exists r, (prompt :: got').
      rewrite (cons_middle prompt sent0 got'), app_assoc.
      destruct (Hcons _ _ _ Heq Hlen Hhead) as (? & ? & ?); [|done|].
      { intros Hne. unfold retry_step. rewrite Hq. split; [done|].
        assert (0 < m) by (destruct got'; [done|simpl in Hlen; lia]).
        by rewrite (proj2 (Nat.ltb_lt a (n - 1))) by lia. }
      split_and!; [done|done|done|done|done| |done].
      intros Hr. simpl. f_equal. by apply Hnone.
  - destruct (IH (S a) prompt (sent0 ++ [prompt]) ltac:(lia))
      as (r & got' & Heq & Hlen & Hhead & Hchain & Hok & Hnone & Hraise).
    exists r, (prompt :: got').
    rewrite (cons_middle prompt sent0 got'), app_assoc.
    destruct (Hcons _ _ _ Heq Hlen Hhead) as (? & ? & ?); [|done|].
    { intros _. unfold retry_step. by rewrite Hq. }
    split_and!; [done|done|done|done|done| |done].
    intros Hr. simpl. f_equal. by apply Hnone.
  - exists (Raise e), [prompt].
    split_and!;
      [done|simpl; lia|done|by intros [|i] q q' ? ?|done|done|].
    by intros e' [= <-].
Qed.

(** The loop falls through only past an exchange without parsed
    value. *)
Lemma attempts_loop_none n range prompt sent sent' :
  range ≠ [] ->
  attempts_loop json_loads svc n range prompt sent = (Ok None, sent') ->
  no_parsed_value json_loads svc sent'.
Proof.
  revert prompt sent.
  induction range as [|a rest IH]; intros prompt sent Hne; [done|].
  rewrite attempts_loop_cons. unfold no_parsed_value in *.
  destruct (query_result (svc (sent ++ [prompt]))) as [[text|]|e] eqn:Hq;
    [|intros H|done].
  - destruct (json_loads (PyStr.strip text)) as [j|] eqn:Hj; [done|].
    intros H. destruct rest as [|a' rest].
    + simpl in H. injection H as <-. by rewrite Hq.
    + by apply IH in H.
  - destruct rest as [|a' rest].
    + simpl in H. injection H as <-. by rewrite Hq.
    + by apply IH in H.
Qed.

(** The attempts of the helper for any [max_retries]. *)
Lemma generate_json_trace n prompt :
  exists r sent,
    generate_json_with_ollama_n json_loads svc n prompt = (r, sent)
    /\ length sent ≤ n
    /\ (0 < n -> sent !! 0 = Some prompt)
    /\ (forall i q q', sent !! i = Some q -> sent !! S i = Some q' ->
        retry_step json_loads svc (take (S i) sent) q q')
    /\ (forall j, r = Ok (Some j) ->
        exists text, query_result (svc sent) = Ok (Some text)
                     /\ json_loads (PyStr.strip text) = Some j)
    /\ (r = Ok None -> length sent = n)
    /\ (forall e, r = Raise e -> query_result (svc sent) = Raise e).
Proof.
  destruct (attempts_trace n n 0 prompt [] eq_refl) as (r & got & H).
  exists r, got. exact H.
Qed.

End OracleFacts.

Section OracleClaims.
Import Py Spec OllamaUtils.

(** C4 (amended). The oracle JSON helper makes at most its fixed number
    of attempts, three, the first with the caller's prompt. Every
    attempt but the last one made gave no parsed value and did not
    raise, and the next attempt follows it: after an answer that fails
    to parse the prompt is sent again with the directive appended, after
    a transport-level failure, a timeout or an empty answer the same
    prompt is sent again. The helper stops at the first answer that
    parses and returns the parsed value, whatever that value is; it
    stops at the first exchange that raises and lets the exception out;
    otherwise it falls through to its final [return None], which it
    reaches only when all three attempts are used up. *)
Theorem retries_after_any_failed_attempt {J : Type}
    (json_loads : string -> option J) (svc : service) (prompt : string) :
  exists r sent,
    generate_json_with_ollama json_loads svc prompt = (r, sent)
    /\ length sent ≤ 3
    /\ sent !! 0 = Some prompt
    /\ (forall i q q', sent !! i = Some q -> sent !! S i = Some q' ->
        retry_step json_loads svc (take (S i) sent) q q')
    /\ (forall j, r = Ok (Some j) ->
        exists text, query_result (svc sent) = Ok (Some text)
                     /\ json_loads (PyStr.strip text) = Some j)
    /\ (r = Ok None ->
        length sent = 3 /\ no_parsed_value json_loads svc sent)
    /\ (forall e, r = Raise e -> query_result (svc sent) = Raise e).
Proof.
  destruct (generate_json_trace json_loads svc 3 prompt)
    as (r & sent & Heq & Hlen & Hhead & Hchain & Hok & Hnone & Hraise).
  exists r, sent.
  split_and!; [done|done|apply Hhead; lia|done|done| |done].
  intros ->. split; [by apply Hnone|].
  by apply (attempts_loop_none json_loads svc 3 (seq 0 3) prompt []).
Qed.

Lemma retries_after_any_failed_attempt_witness :
  [ "p"; "p" ] !! 0 = Some "p" /\ [ "p"; "p" ] !! 1 = Some "p"
  /\ retry_step loads_empty_array timeout_then_answer (take 1 ["p"; "p"])
       "p" "p".
Proof.
  split; [reflexivity|]. split; [reflexivity|].
  destruct (retries_after_any_failed_attempt loads_empty_array
              timeout_then_answer "p")
    as (r & sent & Heq & _ & _ & Hchain & _).
  injection Heq as _ <-. by apply (Hchain 0).
Defined.

(** C4, as stated, fails: after a timeout the helper does not fail, it
    sends the prompt a second time and returns what that answer parses
    to. *)
Lemma timeout_is_retried :
  generate_json_with_ollama loads_empty_array timeout_then_answer "p"
  = (Ok (Some []), ["p"; "p"]).
Proof. reflexivity. Qed.

(** The value of an answer that parses is returned at once, also when
    it is the value of the text [null], which Python reads as [None]:
    that [None] comes after one prompt, not after three. *)
Example parsed_null_is_returned_at_once :
  generate_json_with_ollama loads_null null_text_answer "p"
  = (Ok (Some JNull), ["p"]).
Proof. reflexivity. Qed.

(** An exchange that raises ends the loop at once. *)
Example raising_exchange_ends_the_loop :
  generate_json_with_ollama loads_empty_array null_answer "p"
  = (Raise AttributeError, ["p"]).
Proof. reflexivity. Qed.

(** C10 (amended). When the exchange keeps to the interface of the
    service (it ends in a timeout, an HTTP error, another network error
    or a JSON-decode failure, or its decoded body is an object whose
    response is text or missing), the oracle query helper does not
    raise: every such failure, and an answer whose text is empty or
    whitespace only, gives [None]; any other return is the response
    text, which is not whitespace only. *)
Theorem query_ollama_total_on_well_formed svc prompt sent :
  well_formed (svc (sent ++ [prompt])) = true ->
  exists r,
    query_ollama svc prompt sent = (Ok r, sent ++ [prompt])
    /\ (is_transport_failure (svc (sent ++ [prompt])) = true -> r = None)
    /\ (forall text, response_text (svc (sent ++ [prompt])) = Some text ->
        r = if PyStr.is_empty (PyStr.strip text) then None else Some text)
    /\ (forall s, r = Some s ->
        response_text (svc (sent ++ [prompt])) = Some s
        /\ PyStr.is_empty (PyStr.strip s) = false).
Proof.
  unfold query_ollama, well_formed.
  destruct (svc (sent ++ [prompt])) as [| | | |[|d]]; simpl;
    try (intros _; exists None; by split_and!).
  - done.
  - destruct (d !! "response") as [[|s]|]; simpl.
    + done.
    + intros _. destruct (PyStr.is_empty (PyStr.strip s)) eqn:Hs.
      * exists None. split_and!; [done|done| |done].
        intros text [= <-]. by rewrite Hs.
      * exists (Some s). split_and!; [done|done| |].
        -- intros text [= <-]. by rewrite Hs.
        -- by intros s' [= <-].
    + intros _. exists None. by split_and!; [| |intros text [= <-]|].
Qed.

Lemma query_ollama_total_on_well_formed_witness :
  well_formed (timeout_then_answer ([] ++ ["p"])) = true
  /\ exists r,
       query_ollama timeout_then_answer "p" [] = (Ok r, [] ++ ["p"])
       /\ (is_transport_failure (timeout_then_answer ([] ++ ["p"])) = true ->
           r = None)
       /\ (forall text,
           response_text (timeout_then_answer ([] ++ ["p"])) = Some text ->
           r = if PyStr.is_empty (PyStr.strip text) then None else Some text)
       /\ (forall s, r = Some s ->
           response_text (timeout_then_answer ([] ++ ["p"])) = Some s
           /\ PyStr.is_empty (PyStr.strip s) = false).
Proof.
  split; [reflexivity|].
  apply (query_ollama_total_on_well_formed timeout_then_answer "p" []).
  reflexivity.
Defined.

(** C10, as stated, fails: when the decoded body carries a [null]
    response, or is not an object, [AttributeError] is raised and no
    [except] clause catches it. *)
Lemma null_response_raises :
  query_ollama null_answer "p" [] = (Raise AttributeError, ["p"])
  /\ query_result (Decoded BodyNotObject) = Raise AttributeError.
Proof. split; reflexivity. Qed.

End OracleClaims.

(** ** The scan of the scenario document *)

Section ScanFacts.
Import Py Spec GherkinGenerator.

Lemma spaced_identifier_text d :
  has_text_identifier d -> spaced_identifier d = Ok (spaced (ident d)).
Proof.
  unfold has_text_identifier, spaced_identifier, ident, spaced.
  by destruct (d !! "identifier") as [[|s]|].
Qed.

Lemma scan_locators_cons d rest line (m : locator_map) :
  has_text_identifier d ->
  scan_locators (d :: rest) line m
  = if mentions line d then Ok (add_locator (spaced (ident d)) d line m)
    else scan_locators rest line m.
Proof.
  intros Hd. simpl. by rewrite (spaced_identifier_text d Hd).
Qed.

(** The first record that the line mentions is filed, and no record
    after it is looked at. *)
Lemma scan_locators_first_match pre d post line (m : locator_map) :
  Forall (fun d' => has_text_identifier d' /\ mentions line d' = false) pre ->
  has_text_identifier d -> mentions line d = true ->
  scan_locators (pre ++ d :: post) line m
  = Ok (add_locator (spaced (ident d)) d line m).
Proof.
  intros Hpre Hd Hm. induction Hpre as [|d' pre [Hd' Hm'] _ IH]; simpl app.
  - by rewrite scan_locators_cons, Hm.
  - by rewrite scan_locators_cons, Hm'.
Qed.

Lemma scan_locators_no_match locators line (m : locator_map) :
  Forall (fun d' => has_text_identifier d' /\ mentions line d' = false)
    locators ->
  scan_locators locators line m = Ok m.
Proof.
  induction 1 as [|d' pre [Hd' Hm'] _ IH]; [done|].
  by rewrite scan_locators_cons, Hm'.
Qed.

Lemma scan_locators_first locators line d (m : locator_map) :
  first_match locators line d ->
  scan_locators locators line m
  = Ok (add_locator (spaced (ident d)) d line m).
Proof.
  intros (pre & post & -> & Hpre & Hd & Hm).
  by apply scan_locators_first_match.
Qed.

Lemma scan_lines_step raw rest locators d (m : locator_map) :
  is_step (PyStr.strip raw) = true ->
  first_match locators (PyStr.strip raw) d ->
  scan_lines (raw :: rest) locators m
  = scan_lines rest locators (<[spaced (ident d) := (d, PyStr.strip raw)]> m).
Proof.
  intros Hs Hf. cbn [scan_lines]. rewrite Hs.
  by rewrite (scan_locators_first _ _ d m Hf).
Qed.

Lemma scan_lines_skip between rest locators (m : locator_map) :
  Forall (fun raw => is_step (PyStr.strip raw) = false) between ->
  scan_lines (between ++ rest) locators m = scan_lines rest locators m.
Proof.
  induction 1 as [|raw between Hraw _ IH]; [done|].
  simpl. by rewrite Hraw.
Qed.

End ScanFacts.

Section ScanClaims.
Import Py Spec GherkinGenerator.

(** C9. The scan looks only at the lines of the document that, once
    stripped, start with a step keyword; a document without lines
    leaves the map as it is. For a step line it tests the records in
    order, each identifier with its underscores replaced by spaces as a
    case-insensitive substring of the line, files the first record that
    matches under that key together with the line, and leaves the
    records after it alone; a line that no record matches adds nothing.
    Across the document, a later step line whose record has the key of
    an earlier one replaces the earlier entry: the map keeps one entry
    for that key, with the later record and line. *)
Theorem step_locator_scan locators (m : locator_map) :
  scan_lines [] locators m = Ok m
  /\ (forall raw rest,
      is_step (PyStr.strip raw) = false ->
      scan_lines (raw :: rest) locators m = scan_lines rest locators m)
  /\ (forall raw rest pre d post,
      is_step (PyStr.strip raw) = true ->
      locators = pre ++ d :: post ->
      Forall (fun d' => has_text_identifier d'
                        /\ mentions (PyStr.strip raw) d' = false) pre ->
      has_text_identifier d -> mentions (PyStr.strip raw) d = true ->
      scan_lines (raw :: rest) locators m
      = scan_lines rest locators
          (<[spaced (ident d) := (d, PyStr.strip raw)]> m))
  /\ (forall raw rest,
      is_step (PyStr.strip raw) = true ->
      Forall (fun d' => has_text_identifier d'
                        /\ mentions (PyStr.strip raw) d' = false) locators ->
      scan_lines (raw :: rest) locators m = scan_lines rest locators m)
  /\ (forall raw1 between raw2 rest d1 d2,
      is_step (PyStr.strip raw1) = true ->
      first_match locators (PyStr.strip raw1) d1 ->
      Forall (fun raw => is_step (PyStr.strip raw) = false) between ->
      is_step (PyStr.strip raw2) = true ->
      first_match locators (PyStr.strip raw2) d2 ->
      spaced (ident d1) = spaced (ident d2) ->
      scan_lines (raw1 :: between ++ raw2 :: rest) locators m
      = scan_lines rest locators
          (<[spaced (ident d2) := (d2, PyStr.strip raw2)]> m))
  /\ (forall key d1 line1 d2 line2,
      add_locator key d2 line2 (add_locator key d1 line1 m)
      = add_locator key d2 line2 m
      /\ add_locator key d2 line2 (add_locator key d1 line1 m) !! key
         = Some (d2, line2)).
Proof.
  split_and!.
  - done.
  - intros raw rest Hs. simpl. by rewrite Hs.
  - intros raw rest pre d post Hs -> Hpre Hd Hm. simpl. rewrite Hs.
    by rewrite (scan_locators_first_match pre d post _ m Hpre Hd Hm).
  - intros raw rest Hs Hall. simpl. rewrite Hs.
    by rewrite (scan_locators_no_match _ _ m Hall).
  - intros raw1 between raw2 rest d1 d2 Hs1 Hf1 Hb Hs2 Hf2 Hkey.
    rewrite (scan_lines_step raw1 _ locators d1 m Hs1 Hf1).
    rewrite (scan_lines_skip between _ locators _ Hb).
    rewrite (scan_lines_step raw2 _ locators d2 _ Hs2 Hf2).
    by rewrite Hkey, insert_insert_eq.
  - intros key d1 line1 d2 line2. unfold add_locator. split.
    + apply insert_insert_eq.
    + apply lookup_insert_eq.
Qed.

Lemma step_locator_scan_witness :
  let raw1 := "  Given the User Name is empty" in
  let raw2 := "Scenario: the name is checked" in
  let raw3 := "  Then user name turns red" in
  let other := record "password" "input_field" "//p" "p" in
  let d := record "user_name" "input_field" "//u" "u" in
  let late := record "name" "input_field" "//n" "n" in
  let locators := [other; d; late] in
  is_step (PyStr.strip raw1) = true
  /\ first_match locators (PyStr.strip raw1) d
  /\ is_step (PyStr.strip raw2) = false
  /\ is_step (PyStr.strip raw3) = true
  /\ first_match locators (PyStr.strip raw3) d
  /\ scan_lines [raw1; raw2; raw3] locators ∅
     = Ok (<["user name" := (d, "Then user name turns red")]> ∅).
Proof.
  intros raw1 raw2 raw3 other d late locators.
  assert (Hf : forall line, mentions line other = false ->
                            mentions line d = true ->
                            first_match locators line d).
  { intros line H1 H2. exists [other], [late].
    split_and!; [done| |discriminate|done].
    constructor; [|constructor]. split; [discriminate|done]. }
  assert (Hs1 : is_step (PyStr.strip raw1) = true) by reflexivity.
  assert (Hf1 : first_match locators (PyStr.strip raw1) d)
    by (apply Hf; reflexivity).
  assert (Hs2 : is_step (PyStr.strip raw2) = false) by reflexivity.
  assert (Hs3 : is_step (PyStr.strip raw3) = true) by reflexivity.
  assert (Hf3 : first_match locators (PyStr.strip raw3) d)
    by (apply Hf; reflexivity).
  split_and!; [done..|].
  destruct (step_locator_scan locators ∅) as (_ & _ & _ & _ & Hover & _).
  change [raw1; raw2; raw3] with (raw1 :: [raw2] ++ raw3 :: []).
  rewrite (Hover raw1 [raw2] raw3 [] d d Hs1 Hf1
             ltac:(by constructor) Hs3 Hf3 eq_refl).
  destruct (step_locator_scan locators
              (<[spaced (ident d) := (d, PyStr.strip raw3)]> ∅))
    as (Hnil & _).
  exact Hnil.
Defined.

Example later_step_overwrites :
  let d := record "user_name" "input_field" "//u" "u" in
  populate_locator_map
    (Some ("Feature: login" +:+ PyStr.nl
           +:+ "  Given the User Name is empty" +:+ PyStr.nl
           +:+ "  Then user name turns red"))
    [d]
  = Ok {["user name" := (d, "Then user name turns red")]}.
Proof. reflexivity. Qed.

End ScanClaims.

(** ** Fence stripping *)

Section FenceFacts.
Import PyStr Spec.

Lemma startswith_short p s :
  String.length s < String.length p -> startswith p s = false.
Proof.
  revert s. induction p as [|x p IH]; intros s H.
  - simpl in H. lia.
  - destruct s as [|y s]; [done|]. simpl in *.
    rewrite IH by lia. apply andb_false_r.
Qed.

Lemma rindex_short p s :
  String.length s < String.length p -> rindex p s = None.
Proof.
  induction s as [|y s IH]; intros H.
  - simpl. by rewrite startswith_short.
  - simpl in H. cbn [rindex]. rewrite IH by lia.
    by rewrite startswith_short.
Qed.

Lemma startswith_refl p : startswith p p = true.
Proof.
  induction p as [|x p IH]; [done|]. simpl.
  by rewrite bool_decide_eq_true_2, IH.
Qed.

(** The closing fence at the very end is the last occurrence. *)
Lemma rindex_suffix p x :
  p ≠ EmptyString -> rindex p (x +:+ p) = Some (String.length x).
Proof.
  intros Hp. induction x as [|y x IH].
  - destruct p as [|c p]; [done|].
    change (EmptyString +:+ String c p) with (String c p).
    cbn [rindex]. rewrite rindex_short by (simpl; lia).
    by rewrite startswith_refl.
  - rewrite str_app_cons. cbn [rindex]. by rewrite IH.
Qed.

(** The first occurrence of one character in a concatenation. *)
Lemma index_char_app c a b :
  index (char c) (a +:+ b)
  = match index (char c) a with
    | Some i => Some i
    | None => (fun i => String.length a + i) <$> index (char c) b
    end.
Proof.
  induction a as [|x a IH].
  - change (EmptyString +:+ b) with b.
    assert (index (char c) EmptyString = None) as -> by done.
    by destruct (index (char c) b).
  - rewrite str_app_cons. cbn [index].
    assert (E : forall t, startswith (char c) (String x t) = bool_decide (c = x)).
    { intros t. simpl. apply andb_true_r. }
    rewrite !E. destruct (bool_decide (c = x)); [done|]. rewrite IH.
    destruct (index (char c) a); [done|]. by destruct (index (char c) b).
Qed.

Lemma drop_app a b : drop (String.length a) (a +:+ b) = b.
Proof. induction a as [|x a IH]; [by destruct b|]. by rewrite str_app_cons. Qed.

Lemma take_app a b : take (String.length a) (a +:+ b) = a.
Proof.
  induction a as [|x a IH]; [by destruct b|].
  rewrite str_app_cons. simpl. by rewrite IH.
Qed.

Lemma last_app_cons a c b : last (a +:+ String c b) = last (String c b).
Proof.
  induction a as [|x a IH]; [done|]. rewrite str_app_cons.
  destruct (a +:+ String c b) eqn:E; [by destruct a|]. by rewrite <- IH.
Qed.

End FenceFacts.

Section FenceClaims.
Import PyStr Spec GherkinToTest.

(** A response that does not begin with the fence marker, leading
    whitespace apart, is persisted unchanged. *)
Lemma unfenced_unchanged s :
  startswith "```python" (strip s) = false -> strip_fences s = s.
Proof. unfold strip_fences. by intros ->. Qed.

(** A response without any line feed is persisted unchanged: this is the
    [ValueError] branch. *)
Lemma no_line_feed_unchanged s : index nl s = None -> strip_fences s = s.
Proof.
  unfold strip_fences. intros ->. by destruct (startswith _ _).
Qed.

(** A response that starts with the fence marker and ends with the
    closing fence is reduced to the stripped text between the first line
    and the closing fence. *)
Lemma fenced_response_stripped info body :
  index nl info = None ->
  strip_fences ("```python" +:+ info +:+ nl +:+ body +:+ "```") = strip body.
Proof.
  intros Hinfo. unfold strip_fences.
  set (s := "```python" +:+ info +:+ nl +:+ body +:+ "```").
  assert (Hs : strip s = s).
  { apply strip_class_id; [done|]. unfold last_is, s.
    rewrite <- !str_app_assoc. by rewrite last_app_cons. }
  rewrite Hs. unfold s at 1. rewrite startswith_app.
  assert (Hidx : index nl s = Some (9 + String.length info)).
  { unfold s, nl in *. rewrite index_char_app.
    assert (index (char "010") "```python" = None) as -> by done.
    rewrite index_char_app, Hinfo.
    change (char "010" +:+ body +:+ "```") with (String "010"%char (body +:+ "```")).
    cbn [index]. simpl startswith. cbn. f_equal. lia. }
  rewrite Hidx.
  assert (Hr : rindex "```" s
          = Some (String.length ("```python" +:+ info +:+ nl +:+ body))).
  { unfold s. rewrite <- (rindex_suffix "```") by done.
    by rewrite !str_app_assoc. }
  rewrite Hr. f_equal. unfold slice.
  assert (Hd : drop (9 + String.length info + 1) s = body +:+ "```").
  { assert (Es : s = (("```python" +:+ info) +:+ nl) +:+ (body +:+ "```"))
      by (unfold s; by rewrite !str_app_assoc).
    rewrite Es.
    replace (9 + String.length info + 1)
      with (String.length (("```python" +:+ info) +:+ nl))
      by (rewrite !str_length_app; simpl; lia).
    apply drop_app. }
  rewrite Hd.
  replace (String.length ("```python" +:+ info +:+ nl +:+ body)
           - (9 + String.length info + 1)) with (String.length body)
    by (rewrite !str_length_app; simpl; lia).
  apply take_app.
Qed.

(** C8. The code at the failing input: the response opens a fenced block
    and never closes it. The last fence that [rindex] finds is the
    opening one, the slice between the first line feed and that fence is
    empty, and the empty text is persisted instead of the raw response. *)
Theorem unclosed_fence_persists_nothing :
  let response := "```python" +:+ nl +:+ "print(1)" in
  index nl response = Some 9
  /\ rindex "```" response = Some 0
  /\ strip_fences response = EmptyString
  /\ persisted_test (Some response) = Py.Ok EmptyString.
Proof. repeat split. Qed.

Example fenced_example :
  strip_fences ("```python" +:+ nl +:+ "print(1)" +:+ nl +:+ "```")
  = "print(1)".
Proof. reflexivity. Qed.

(** The marker is looked for after stripping, the line feed before: a
    response with a leading line feed keeps its opening fence. *)
Example leading_line_feed_keeps_fence :
  strip_fences (nl +:+ "```python" +:+ nl +:+ "print(1)" +:+ nl +:+ "```")
  = "```python" +:+ nl +:+ "print(1)".
Proof. reflexivity. Qed.

End FenceClaims.

(** * Further properties of the code *)

(** ** The sanitizer with any fallback category *)

Section SanitizerMore.
Import PyStr Spec SpecX Utils.

Local Ltac by_cases c :=
  destruct c as [[|] [|] [|] [|] [|] [|] [|] [|]]; vm_compute;
  try reflexivity; try discriminate; intros; try discriminate; try reflexivity.

Lemma lower_char_idem c : lower_char (lower_char c) = lower_char c.
Proof. by_cases c. Qed.

Lemma underscore_lower_char c :
  is_word c = true ->
  is_char "_"%char (lower_char c) = negb (is_alnum c).
Proof. by_cases c. Qed.

Lemma is_alnum_not_word c : is_word c = false -> is_alnum c = false.
Proof. unfold is_alnum. by intros ->. Qed.

Lemma lower_idem s : lower (lower s) = lower s.
Proof.
  unfold lower. induction s as [|c t IH]; [done|]. simpl.
  by rewrite lower_char_idem, IH.
Qed.

Lemma is_empty_lower s : is_empty (lower s) = is_empty s.
Proof. by destruct s. Qed.

(** X1. The sanitizer does not see letter case: an identifier and its
    lower-cased form get the same name, whatever the fallback
    category. *)
Theorem sanitize_ignores_case s category :
  sanitize_identifier_for_method_name (lower s) category
  = sanitize_identifier_for_method_name s category.
Proof.
  unfold sanitize_identifier_for_method_name.
  by rewrite is_empty_lower, lower_idem.
Qed.

Lemma lstrip_empty p s : lstrip p s = EmptyString <-> all p s = true.
Proof.
  induction s as [|c t IH]; simpl; [done|].
  destruct (p c); simpl; [exact IH|]. split; discriminate.
Qed.

Lemma strip_class_empty p s :
  strip_class p s = EmptyString <-> all p s = true.
Proof.
  unfold strip_class. split.
  - intros H. apply lstrip_empty.
    pose proof (lstrip_head p s) as Hh.
    destruct (lstrip p s) as [|c t] eqn:E; [done|].
    unfold head_is in Hh. simpl in Hh, H.
    destruct (rstrip p t); [by rewrite Hh in H|done].
  - by intros ->%lstrip_empty.
Qed.

Lemma all_underscore_sub b s :
  all (is_char "_"%char) (sub_nonword_runs b (lower s))
  = all (fun x => negb (is_alnum x)) s.
Proof.
  revert b. unfold lower. induction s as [|c t IH]; intros b; [done|].
  simpl. rewrite is_word_lower_char. destruct (is_word c) eqn:Hw.
  - simpl. by rewrite underscore_lower_char, IH.
  - rewrite (is_alnum_not_word c Hw). simpl.
    destruct b; simpl; by rewrite IH.
Qed.

Lemma core_empty_iff s :
  core s = EmptyString <-> all (fun x => negb (is_alnum x)) s = true.
Proof.
  unfold core. rewrite strip_class_empty. by rewrite all_underscore_sub.
Qed.

Lemma sanitize_any_core_finish s category :
  sanitize_identifier_for_method_name s category = finish category (core s).
Proof.
  unfold sanitize_identifier_for_method_name.
  destruct s as [|c t]; [|reflexivity].
  change (core EmptyString) with EmptyString. unfold finish. simpl is_empty.
  cbv iota. reflexivity.
Qed.

(** X2. Whatever the fallback category, the sanitized name is not empty
    and does not start with a digit. When the identifier holds no letter
    or digit the fallback name [unnamed_<category>] is returned; when it
    holds one, the name is built from the identifier alone and does not
    depend on the category. *)
Theorem sanitize_fallback_when_no_alnum s category :
  let r := sanitize_identifier_for_method_name s category in
  is_empty r = false
  /\ head_is isdigit r = false
  /\ (all (fun x => negb (is_alnum x)) s = true -> r = fallback_name category)
  /\ (all (fun x => negb (is_alnum x)) s = false ->
      forall category',
        sanitize_identifier_for_method_name s category' = r).
Proof.
  simpl. rewrite sanitize_any_core_finish.
  assert (Hfb : finish category EmptyString = fallback_name category)
    by reflexivity.
  destruct (core s) as [|c t] eqn:Hc.
  - rewrite Hfb. split_and!; [done|done|done|].
    intros Hn. apply core_empty_iff in Hc. congruence.
  - assert (E : forall k, finish k (String c t)
                = if isdigit c then "_" +:+ String c t else String c t)
      by reflexivity.
    rewrite E. split_and!.
    + by destruct (isdigit c).
    + destruct (isdigit c) eqn:Hd; [done|]. unfold head_is. simpl. exact Hd.
    + intros Hn%core_empty_iff. congruence.
    + intros _ category'. by rewrite sanitize_any_core_finish, Hc, E.
Qed.

Lemma sanitize_fallback_when_no_alnum_witness :
  all (fun x => negb (is_alnum x)) "-- !" = true
  /\ sanitize_identifier_for_method_name "-- !" "Radio Group"
     = fallback_name "Radio Group".
Proof.
  split; [reflexivity|].
  destruct (sanitize_fallback_when_no_alnum "-- !" "Radio Group")
    as (_ & _ & H & _).
  apply H. reflexivity.
Defined.

(** The converse of the fallback case fails: an identifier with letters
    can spell the fallback name itself. *)
Example identifier_can_spell_fallback_name :
  all (fun x => negb (is_alnum x)) "unnamed_element" = false
  /\ sanitize_identifier_for_method_name "unnamed_element" "element"
     = fallback_name "element".
Proof. split; reflexivity. Qed.

End SanitizerMore.

(** ** Markup normalisation *)

Section MarkupFacts.
Import PyStr Spec SpecX Markup.

Lemma collapse_ok b s : spaced_ok b (collapse_spaces b s) = true.
Proof.
  revert b. induction s as [|c t IH]; intros b; [done|]. simpl.
  destruct (is_space c) eqn:Hc.
  - destruct b; [apply IH|]. simpl. apply IH.
  - simpl. rewrite Hc. apply IH.
Qed.

Lemma collapse_fixed b s : spaced_ok b s = true -> collapse_spaces b s = s.
Proof.
  revert b. induction s as [|c t IH]; intros b; [done|]. simpl.
  destruct (is_space c) eqn:Hc.
  - intros [[Hsp Hb%negb_true_iff]%andb_true_iff Ht]%andb_true_iff.
    subst b. apply bool_decide_eq_true in Hsp. subst c. f_equal. by apply IH.
  - intros Ht. f_equal. by apply IH.
Qed.

Lemma spaced_ok_weaken b s : spaced_ok b s = true -> spaced_ok false s = true.
Proof.
  destruct s as [|c t]; [done|]. simpl. destruct (is_space c); [|done].
  intros [[-> _]%andb_true_iff ->]%andb_true_iff. done.
Qed.

Lemma spaced_ok_lstrip b s :
  spaced_ok b s = true -> spaced_ok false (lstrip is_space s) = true.
Proof.
  revert b. induction s as [|c t IH]; intros b; [done|]. simpl.
  destruct (is_space c) eqn:Hc.
  - intros [_ Ht]%andb_true_iff. by apply (IH true).
  - intros Ht. simpl. by rewrite Hc.
Qed.

Lemma spaced_ok_cons b c t :
  spaced_ok b (String c t)
  = if is_space c then is_char " "%char c && negb b && spaced_ok true t
    else spaced_ok false t.
Proof. reflexivity. Qed.

Lemma spaced_ok_rstrip b s :
  spaced_ok b s = true -> spaced_ok b (rstrip is_space s) = true.
Proof.
  revert b. induction s as [|c t IH]; intros b; [done|].
  rewrite spaced_ok_cons. cbn [rstrip].
  destruct (is_space c) eqn:Hc.
  - intros [Hcb Ht]%andb_true_iff. specialize (IH true Ht).
    destruct (rstrip is_space t) as [|a r]; [done|].
    by rewrite spaced_ok_cons, Hc, Hcb.
  - intros Ht. specialize (IH false Ht).
    destruct (rstrip is_space t) as [|a r].
    + unfold char. by rewrite spaced_ok_cons, Hc.
    + by rewrite spaced_ok_cons, Hc.
Qed.

(** X3. The normalised markup holds no whitespace but single plain
    spaces between other characters, has none at either end, and is
    left unchanged by a second normalisation. *)
Theorem normalize_normal_form html :
  let out := normalize html in
  spaced_ok false out = true
  /\ head_is is_space out = false
  /\ last_is is_space out = false
  /\ normalize out = out.
Proof.
  simpl. unfold normalize, strip.
  assert (Hok : spaced_ok false
                  (strip_class is_space (collapse_spaces false html)) = true).
  { unfold strip_class. apply spaced_ok_rstrip.
    apply (spaced_ok_lstrip false), collapse_ok. }
  split_and!; [exact Hok|apply strip_class_head|apply strip_class_last|].
  rewrite (collapse_fixed _ _ Hok).
  apply strip_class_id; [apply strip_class_head|apply strip_class_last].
Qed.

End MarkupFacts.

(** ** The class name of a page *)

Section ClassNameFacts.
Import PyStr Spec SpecX Orchestrator.

Lemma has_char_app x a b : has_char x (a +:+ b) = has_char x a || has_char x b.
Proof.
  unfold has_char. rewrite all_app. by destruct (all _ a), (all _ b).
Qed.

Lemma last_segment_after_slash u v :
  has_char "/"%char v = false -> last_segment (u +:+ "/" +:+ v) = v.
Proof.
  intros Hv. induction u as [|c u IH].
  - change (EmptyString +:+ "/" +:+ v) with (String "/"%char v).
    simpl. by rewrite Hv.
  - change (String c u +:+ "/" +:+ v) with (String c (u +:+ "/" +:+ v)).
    cbn [last_segment]. rewrite has_char_app.
    change ("/" +:+ v) with (String "/"%char v) at 1.
    assert (has_char "/"%char (String "/"%char v) = true) as -> by done.
    rewrite orb_true_r. exact IH.
Qed.

(** X12. Only the text after the last slash of the URL enters the class
    name: a URL has the class name of its last path segment, and a URL
    that ends with a slash has the class name [unnamed_element]. *)
Theorem class_name_from_last_segment u v :
  has_char "/"%char v = false ->
  class_name_of_url (u +:+ "/" +:+ v) = class_name_of_url v
  /\ class_name_of_url (u +:+ "/") = "unnamed_element".
Proof.
  intros Hv. unfold class_name_of_url. split.
  - rewrite (last_segment_after_slash u v Hv).
    assert (last_segment v = v) as ->; [|done].
    clear u. induction v as [|c v IH]; [done|].
    unfold has_char in Hv. simpl in Hv.
    apply negb_false_iff, andb_true_iff in Hv as [Hc Hv].
    simpl. unfold has_char. rewrite Hv. simpl.
    apply negb_true_iff in Hc. by rewrite Hc.
  - change (u +:+ "/") with (u +:+ "/" +:+ EmptyString).
    by rewrite (last_segment_after_slash u EmptyString eq_refl).
Qed.

Lemma class_name_from_last_segment_witness :
  has_char "/"%char "student-form.php" = false
  /\ class_name_of_url ("https://example.org/app" +:+ "/" +:+ "student-form.php")
     = class_name_of_url "student-form.php"
  /\ class_name_of_url ("https://example.org/app" +:+ "/") = "unnamed_element".
Proof.
  split; [reflexivity|].
  apply (class_name_from_last_segment "https://example.org/app"
           "student-form.php").
  reflexivity.
Defined.

End ClassNameFacts.

(** ** Validation: entries that are not objects, and empty results *)

Section ValidationMore.
Import Py Spec SpecX.

(** X4. In [extract_locators] an element of the oracle's array that is
    not an object raises [AttributeError] for the whole stage, whatever
    objects come before it and whatever follows. *)
Theorem extract_raises_on_non_object ds rest :
  LocatorExtractor.extract_locators
    (LocatorExtractor.PList ((Object <$> ds) ++ NonObject :: rest))
  = Raise AttributeError.
Proof.
  assert (H : forall seen uniq,
    LocatorExtractor.validate_loop ((Object <$> ds) ++ NonObject :: rest)
      seen uniq = Raise AttributeError).
  { induction ds as [|d ds IH]; intros seen uniq; [done|].
    rewrite fmap_cons. simpl app. rewrite extract_step.
    destruct (_ && _); apply IH. }
  unfold LocatorExtractor.extract_locators.
  destruct ((Object <$> ds) ++ NonObject :: rest) as [|e l] eqn:E.
  { by destruct ds. }
  by rewrite H.
Qed.

(** X5. The validation of [generate_pom] passes over an element that is
    not an object: the accepted records are those of the array without
    that element. *)
Theorem pom_validation_skips_non_object l1 l2 seen uniq :
  PomGenerator.validate_loop (l1 ++ NonObject :: l2) seen uniq
  = PomGenerator.validate_loop (l1 ++ l2) seen uniq.
Proof.
  revert seen uniq. induction l1 as [|e l1 IH]; intros seen uniq; [done|].
  destruct e as [|d]; simpl app.
  - simpl. apply IH.
  - rewrite !pom_step. destruct (_ && _); apply IH.
Qed.

Lemma kept_none usable seen ds :
  Forall (fun d => PyStr.is_empty (ident d) = true \/ usable d = false) ds ->
  kept usable seen ds = [].
Proof.
  intros H. revert seen. induction H as [|d ds Hd _ IH]; intros seen; [done|].
  rewrite kept_cons. destruct Hd as [-> | ->]; simpl; [apply IH|].
  rewrite andb_false_r. apply IH.
Qed.

(** X6. When no record of a non-empty array has both a non-empty
    identifier and both locators, [extract_locators] returns the empty
    list: the stage does not raise although it accepted nothing. *)
Theorem extract_returns_empty_list d0 ds :
  Forall (fun d => PyStr.is_empty (ident d) = true \/ has_both d = false)
    (d0 :: ds) ->
  LocatorExtractor.extract_locators
    (LocatorExtractor.PList (Object <$> (d0 :: ds))) = Ok [].
Proof.
  intros H. rewrite extract_locators_kept. f_equal. by apply kept_none.
Qed.

Lemma extract_returns_empty_list_witness :
  let d0 := record EmptyString "button" "//a" "a" in
  let d1 := record "go" "button" "//b" EmptyString in
  Forall (fun d => PyStr.is_empty (ident d) = true \/ has_both d = false)
    (d0 :: [d1])
  /\ LocatorExtractor.extract_locators
       (LocatorExtractor.PList (Object <$> (d0 :: [d1]))) = Ok [].
Proof.
  intros d0 d1.
  assert (H : Forall (fun d => PyStr.is_empty (ident d) = true
                               \/ has_both d = false) (d0 :: [d1])).
  { constructor; [by left|]. constructor; [by right|]. constructor. }
  split; [exact H|]. exact (extract_returns_empty_list d0 [d1] H).
Defined.

(** Some record with the identifier of a usable record is kept. *)
Lemma kept_covers usable seen ds d :
  d ∈ ds -> usable d = true -> PyStr.is_empty (ident d) = false ->
  ident d ∉ seen ->
  exists d', d' ∈ kept usable seen ds /\ ident d' = ident d.
Proof.
  intros Hd Hu He. revert seen.
  induction ds as [|x rest IH]; intros seen Hs; [by apply elem_of_nil in Hd|].
  rewrite kept_cons.
  destruct (negb (PyStr.is_empty (ident x))
            && negb (bool_decide (ident x ∈ seen)) && usable x) eqn:Hx.
  - destruct (decide (ident x = ident d)) as [Heq|Hne].
    + exists x. split; [by left|done].
    + apply elem_of_cons in Hd as [->|Hd]; [done|].
      destruct (IH Hd ({[ident x]} ∪ seen)) as (d' & Hd' & Heq).
      { intros [Hin%elem_of_singleton|Hin]%elem_of_union; [|done].
        by apply Hne. }
      exists d'. split; [by right|done].
  - apply elem_of_cons in Hd as [->|Hd].
    + rewrite He, Hu in Hx. rewrite (bool_decide_eq_false_2 _ Hs) in Hx.
      discriminate.
    + by apply IH.
Qed.

(** X7. On one and the same array of objects, every identifier that
    [extract_locators] accepts is also accepted by the validation of
    [generate_pom], possibly with another record of that identifier. *)
Theorem extract_identifiers_within_pom d0 ds :
  exists out,
    LocatorExtractor.extract_locators
      (LocatorExtractor.PList (Object <$> (d0 :: ds))) = Ok out
    /\ forall d, d ∈ out ->
         exists d',
           d' ∈ (PomGenerator.validate_loop (Object <$> (d0 :: ds)) ∅ []).2
           /\ ident d' = ident d.
Proof.
  exists (kept has_both ∅ (d0 :: ds)). split; [apply extract_locators_kept|].
  intros d (Hin & Hu & He & _)%kept_sound.
  destruct (pom_validate_kept (d0 :: ds) ∅ []) as [seen' ->].
  change (([] ++ kept has_either ∅ (d0 :: ds)))
    with (kept has_either ∅ (d0 :: ds)). cbn [snd].
  apply kept_covers; [done| |done|by intros ?%elem_of_empty].
  unfold has_both in Hu. unfold has_either.
  apply andb_true_iff in Hu as [-> _]. done.
Qed.

(** The two validations can keep different records for one identifier. *)
Example stages_keep_different_records :
  let a := record "x" "button" "//a" EmptyString in
  let b := record "x" "button" "//b" "b" in
  LocatorExtractor.extract_locators
    (LocatorExtractor.PList [Object a; Object b]) = Ok [b]
  /\ (PomGenerator.validate_loop [Object a; Object b] ∅ []).2 = [a].
Proof. split; reflexivity. Qed.

End ValidationMore.

(** ** The persisted records of [generate_pom] *)

Section ArtifactFacts.
Import Py Spec SpecX PomArtifacts.

(** X8. A persisted record has exactly the four members identifier,
    category, xpath and css_selector, each with the value of the
    oracle's record when it has that member; persisting a persisted
    record changes nothing. *)
Theorem serializable_four_members d :
  dom (serializable d)
  = ({["identifier"; "category"; "xpath"; "css_selector"]} : gset string)
  /\ (forall key v,
      key ∈ ["identifier"; "category"; "xpath"; "css_selector"] ->
      d !! key = Some v -> serializable d !! key = Some v)
  /\ serializable (serializable d) = serializable d.
Proof.
  split_and!.
  - unfold serializable. rewrite !dom_insert_L, dom_empty_L.
    by rewrite (right_id_L ∅ (∪)), !(assoc_L (∪)).
  - intros key v Hkey Hv. unfold serializable.
    repeat (apply elem_of_cons in Hkey as [->|Hkey]);
      [..|by apply elem_of_nil in Hkey];
      rewrite ?lookup_insert_ne by done;
      rewrite lookup_insert_eq; by rewrite Hv.
  - unfold serializable at 1.
    unfold serializable.
    rewrite ?lookup_insert_ne by done. rewrite !lookup_insert_eq.
    rewrite ?lookup_insert_ne by done. rewrite !lookup_insert_eq.
    rewrite ?lookup_insert_ne by done. rewrite !lookup_insert_eq.
    reflexivity.
Qed.

Lemma serializable_four_members_witness :
  let d := <["identifier" := JStr "go"]> (<["note" := JStr "x"]> ∅) in
  "identifier" ∈ ["identifier"; "category"; "xpath"; "css_selector"]
  /\ d !! "identifier" = Some (JStr "go")
  /\ serializable d !! "identifier" = Some (JStr "go").
Proof.
  intros d. split; [apply list_elem_of_here|]. split; [reflexivity|].
  destruct (serializable_four_members d) as (_ & H & _).
  apply H; [apply list_elem_of_here|reflexivity].
Defined.

End ArtifactFacts.

(** ** The accessor loop: how many methods, and which names *)

Section AccessorMore.
Import Py Spec SpecX.

Lemma method_for_some category name escaped :
  is_Some (PomGenerator.method_for category name escaped)
  <-> recognised category = true.
Proof.
  split.
  - intros Hs. destruct (recognised category) eqn:Hr; [done|].
    apply not_recognised in Hr as (? & ? & ? & ? & ?).
    unfold PomGenerator.method_for in Hs.
    rewrite !bool_decide_eq_false_2 in Hs by done. by destruct Hs.
  - intros Hr%bool_decide_eq_true. unfold PomGenerator.method_for.
    repeat (apply elem_of_cons in Hr as [->|Hr]); [eauto..|].
    by apply elem_of_nil in Hr.
Qed.

Lemma emitted_some d name : is_Some (emitted (d, name)) <-> emits d = true.
Proof.
  unfold emitted, emits. simpl. destruct (has_xpath d); simpl.
  - apply method_for_some.
  - split; [by intros [? ?]|done].
Qed.

Lemma length_omap_emitted items names :
  length names = length items ->
  length (omap emitted (zip items names)) = length (List.filter emits items).
Proof.
  revert names. induction items as [|d items IH]; intros [|n names] Hlen;
    try done.
  injection Hlen as Hlen. specialize (IH names Hlen).
  cbn [zip zip_with omap list_omap List.filter].
  destruct (emits d) eqn:He.
  - destruct (proj2 (emitted_some d n) He) as [text ->].
    cbn [length]. by rewrite <- IH.
  - destruct (emitted (d, n)) eqn:Hem; [|exact IH].
    assert (emits d = true) by (apply (emitted_some d n); eauto). congruence.
Qed.

(** X9. The accessor loop emits exactly one method for each record that
    has a non-empty xpath and one of the five categories with a
    template, and none for any other record; so there are never more
    methods than records. *)
Theorem one_method_per_eligible_record items :
  exists G names content,
    PomGenerator.methods_loop items ∅ [] [] = Some (G, names, content)
    /\ length content = length (List.filter emits items)
    /\ length content ≤ length items.
Proof.
  destruct (methods_loop_spec items ∅ [] [])
    as (G & got & Heq & Hlen & _ & _ & _);
    [by intros n ?%elem_of_nil|constructor|].
  exists G, got, (omap emitted (zip items got)).
  split; [exact Heq|].
  rewrite (length_omap_emitted items got Hlen).
  split; [done|]. apply List.filter_length_le.
Qed.

(** X10. Each record is given the first of the names base, base_1,
    base_2, ... that no earlier record of the page was given, its base
    being its sanitized identifier; the set of generated names holds
    exactly the names handed out. *)
Theorem name_is_first_free_candidate items :
  exists G names content,
    PomGenerator.methods_loop items ∅ [] [] = Some (G, names, content)
    /\ G = list_to_set names
    /\ forall i d, items !! i = Some d ->
         exists k,
           names !! i = Some (candidate (method_name_base d) k)
           /\ (candidate (method_name_base d) k ∉ take i names)
           /\ forall j, j < k ->
                candidate (method_name_base d) j ∈ take i names.
Proof.
  destruct (methods_loop_names items [] []) as (got & content' & Heq & _ & H).
  exists (list_to_set got), got, content'. split_and!; [exact Heq|done|exact H].
Qed.

Lemma name_is_first_free_candidate_witness :
  let d := record "Save" "button" "//a" "a" in
  [d] !! 0 = Some d
  /\ exists G names content,
       PomGenerator.methods_loop [d] ∅ [] [] = Some (G, names, content)
       /\ names !! 0 = Some (method_name_base d).
Proof.
  intros d.
  assert (Hd : [d] !! 0 = Some d) by reflexivity.
  split; [exact Hd|].
  destruct (name_is_first_free_candidate [d])
    as (G & names & content & Heq & _ & Hall).
  exists G, names, content. split; [exact Heq|].
  destruct (Hall 0 d Hd) as (k & Hk & _ & Hlt).
  destruct k as [|k]; [exact Hk|].
  specialize (Hlt 0 (Nat.lt_0_succ k)). by apply elem_of_nil in Hlt.
Defined.

Lemma quotes_escaped_escape prev s :
  quotes_escaped prev (PomGenerator.escape_quotes s) = true.
Proof.
  revert prev. unfold PomGenerator.escape_quotes.
  induction s as [|c t IH]; intros prev; [done|]. simpl.
  destruct (PyStr.is_char "'"%char c) eqn:Hc.
  - change (quotes_escaped prev
              (String "092"%char (String "'"%char (PyStr.replace "'"%char
                 (String "092"%char "'") t))) = true).
    simpl. apply IH.
  - simpl. rewrite Hc. simpl. apply IH.
Qed.

(** X11. In the escaped xpath every single quote stands right after a
    backslash, and an xpath without single quote is left as it is. *)
Theorem escape_quotes_escapes_every_quote xpath :
  quotes_escaped false (PomGenerator.escape_quotes xpath) = true
  /\ (Orchestrator.has_char "'"%char xpath = false ->
      PomGenerator.escape_quotes xpath = xpath).
Proof.
  split; [apply quotes_escaped_escape|].
  unfold Orchestrator.has_char, PomGenerator.escape_quotes.
  intros H%negb_false_iff. induction xpath as [|c t IH]; [done|].
  simpl in *. apply andb_true_iff in H as [Hc%negb_true_iff Ht].
  rewrite Hc. f_equal. by apply IH.
Qed.

Lemma escape_quotes_escapes_every_quote_witness :
  Orchestrator.has_char "'"%char "//button[@id=1]" = false
  /\ PomGenerator.escape_quotes "//button[@id=1]" = "//button[@id=1]".
Proof.
  split; [reflexivity|].
  apply (escape_quotes_escapes_every_quote "//button[@id=1]"). reflexivity.
Defined.

End AccessorMore.

(** ** The prompts of the oracle JSON helper *)

Section OracleMore.
Import Py Spec SpecX OllamaUtils.

Lemma str_app_nil_r s : s +:+ EmptyString = s.
Proof. induction s as [|c t IH]; [done|]. by rewrite str_app_cons, IH. Qed.

Lemma repeat_str_comm k s : repeat_str k s +:+ s = s +:+ repeat_str k s.
Proof.
  induction k as [|k IH]; simpl; [by rewrite str_app_nil_r|].
  by rewrite str_app_assoc, IH.
Qed.

Context {J : Type}.
Variable json_loads : string -> option J.
Variable svc : service.

(** X13. Whatever the service does, every prompt that the helper sends
    is the caller's prompt followed by some copies of the directive, at
    most one copy for each earlier attempt. *)
Theorem prompts_are_prompt_plus_directives n prompt :
  exists r sent,
    generate_json_with_ollama_n json_loads svc n prompt = (r, sent)
    /\ forall i q, sent !! i = Some q ->
         exists k, k ≤ i /\ q = prompt +:+ repeat_str k directive.
Proof.
  destruct (generate_json_trace json_loads svc n prompt)
    as (r & sent & Heq & Hlen & Hhead & Hchain & _).
  exists r, sent. split; [exact Heq|].
  induction i as [|i IH]; intros q Hq.
  - exists 0. split; [done|]. simpl. rewrite str_app_nil_r.
    assert (0 < n).
    { apply lookup_lt_Some in Hq. lia. }
    rewrite Hhead in Hq by done. by injection Hq.
  - destruct (lookup_lt_is_Some_2 sent i) as [q0 Hq0].
    { apply lookup_lt_Some in Hq. lia. }
    destruct (IH q0 Hq0) as (k & Hk & ->).
    specialize (Hchain i _ _ Hq0 Hq). unfold retry_step in Hchain.
    destruct (query_result _) as [[text|]|e]; [|subst q|done].
    + destruct Hchain as [_ ->]. exists (S k). split; [lia|].
      simpl. by rewrite str_app_assoc, repeat_str_comm.
    + exists k. split; [lia|done].
Qed.

Lemma attempts_without_text n range prompt sent :
  (forall history, query_result (svc history) = Ok None) ->
  attempts_loop json_loads svc n range prompt sent
  = (Ok None, sent ++ replicate (length range) prompt).
Proof.
  intros Hsvc. revert sent.
  induction range as [|a range IH]; intros sent.
  - simpl. by rewrite app_nil_r.
  - rewrite attempts_loop_cons, Hsvc, IH. simpl.
    by rewrite <- app_assoc.
Qed.

(** X14. When no exchange yields a text (each one ends in a caught
    failure or an empty answer), the helper sends the unchanged prompt
    once per attempt, [max_retries] times in all, and returns [None]. *)
Theorem no_text_uses_every_attempt n prompt :
  (forall history, query_result (svc history) = Ok None) ->
  generate_json_with_ollama_n json_loads svc n prompt
  = (Ok None, replicate n prompt).
Proof.
  intros Hsvc. unfold generate_json_with_ollama_n.
  rewrite (attempts_without_text n (seq 0 n) prompt [] Hsvc).
  by rewrite length_seq.
Qed.

Lemma attempts_unparsable n m a prompt sent :
  (forall history, exists text,
     query_result (svc history) = Ok (Some text)
     /\ json_loads (PyStr.strip text) = None) ->
  a + m = n ->
  attempts_loop json_loads svc n (seq a m) prompt sent
  = (Ok None,
     sent ++ ((fun k => prompt +:+ repeat_str k directive) <$> seq 0 m)).
Proof.
  intros Hsvc. revert a prompt sent.
  induction m as [|m IH]; intros a prompt sent Hn.
  - simpl. by rewrite app_nil_r.
  - cbn [seq]. rewrite attempts_loop_cons.
    destruct (Hsvc (sent ++ [prompt])) as (text & -> & ->).
    rewrite (IH (S a)) by lia.
    rewrite fmap_cons. cbn [repeat_str].
    rewrite str_app_nil_r, <- app_assoc. simpl. do 3 f_equal.
    rewrite <- fmap_S_seq, <- list_fmap_compose.
    destruct m as [|m]; [done|].
    rewrite (proj2 (Nat.ltb_lt a (n - 1))) by lia.
    apply list_fmap_ext. intros _ k _. simpl.
    by rewrite str_app_assoc.
Qed.

(** X15. When every answer is a text that does not parse, the helper
    uses every attempt, appends the directive once more before each
    further attempt, so that attempt k sends the prompt with k copies
    of the directive, and returns [None]. *)
Theorem unparsable_answers_grow_prompt n prompt :
  (forall history, exists text,
     query_result (svc history) = Ok (Some text)
     /\ json_loads (PyStr.strip text) = None) ->
  generate_json_with_ollama_n json_loads svc n prompt
  = (Ok None, (fun k => prompt +:+ repeat_str k directive) <$> seq 0 n).
Proof.
  intros Hsvc. unfold generate_json_with_ollama_n.
  by rewrite (attempts_unparsable n n 0 prompt [] Hsvc eq_refl).
Qed.

End OracleMore.

Section OracleMoreWitnesses.
Import Py Spec SpecX OllamaUtils.

Lemma no_text_uses_every_attempt_witness :
  (forall history, query_result (always_timeout history) = Ok None)
  /\ generate_json_with_ollama_n loads_nothing always_timeout 3 "p"
     = (Ok None, replicate 3 "p").
Proof.
  assert (H : forall history, query_result (always_timeout history) = Ok None)
    by done.
  split; [exact H|].
  exact (no_text_uses_every_attempt loads_nothing always_timeout 3 "p" H).
Defined.

Lemma unparsable_answers_grow_prompt_witness :
  let svc : service := fun _ =>
    Decoded (BodyObject (<["response" := JStr "oops"]> ∅)) in
  (forall history, exists text,
     query_result (svc history) = Ok (Some text)
     /\ loads_nothing (PyStr.strip text) = None)
  /\ generate_json_with_ollama_n loads_nothing svc 2 "p"
     = (Ok None, (fun k => "p" +:+ repeat_str k directive) <$> seq 0 2).
Proof.
  intros svc.
  assert (H : forall history, exists text,
     query_result (svc history) = Ok (Some text)
     /\ loads_nothing (PyStr.strip text) = None)
    by (intros history; by exists "oops").
  split; [exact H|].
  exact (unparsable_answers_grow_prompt loads_nothing svc 2 "p" H).
Defined.

End OracleMoreWitnesses.

(** ** The scan of the scenario document: what the map can hold *)

Section ScanMore.
Import Py Spec SpecX GherkinGenerator.

Lemma spaced_no_underscore s :
  Orchestrator.has_char "_"%char (spaced s) = false.
Proof.
  unfold Orchestrator.has_char, spaced. apply negb_false_iff.
  induction s as [|c t IH]; [done|]. simpl.
  destruct (PyStr.is_char "_"%char c) eqn:Hc; simpl; [exact IH|].
  by rewrite Hc, IH.
Qed.

Lemma scan_locators_result locators line (m m' : locator_map) :
  scan_locators locators line m = Ok m' ->
  m' = m
  \/ exists d, d ∈ locators /\ has_text_identifier d
               /\ mentions line d = true
               /\ m' = <[spaced (ident d) := (d, line)]> m.
Proof.
  induction locators as [|d rest IH]; intros H.
  - left. simpl in H. by injection H.
  - destruct (d !! "identifier") as [[|s]|] eqn:E.
    + simpl in H. unfold spaced_identifier in H. rewrite E in H.
      discriminate H.
    + assert (Hd : has_text_identifier d)
        by (unfold has_text_identifier; by rewrite E).
      rewrite (scan_locators_cons d rest line m Hd) in H.
      destruct (mentions line d) eqn:Hm.
      * right. exists d. split_and!; [apply list_elem_of_here|done|done|].
        by injection H.
      * destruct (IH H) as [->|(d' & Hin & ?)]; [by left|].
        right. exists d'. split; [by apply list_elem_of_further|done].
    + assert (Hd : has_text_identifier d)
        by (unfold has_text_identifier; by rewrite E).
      rewrite (scan_locators_cons d rest line m Hd) in H.
      destruct (mentions line d) eqn:Hm.
      * right. exists d. split_and!; [apply list_elem_of_here|done|done|].
        by injection H.
      * destruct (IH H) as [->|(d' & Hin & ?)]; [by left|].
        right. exists d'. split; [by apply list_elem_of_further|done].
Qed.

(** X16. Whatever the scan returns, each entry of the map either was in
    the map before, or pairs a record of the list with a stripped step
    line of the document that mentions it, under the record's
    identifier with spaces for underscores: so no key written by the
    scan contains an underscore. *)
Theorem scan_entries_are_matches lines locators (m m' : locator_map) :
  scan_lines lines locators m = Ok m' ->
  forall key d line,
    m' !! key = Some (d, line) ->
    m !! key = Some (d, line)
    \/ (d ∈ locators /\ key = spaced (ident d)
        /\ Orchestrator.has_char "_"%char key = false
        /\ mentions line d = true /\ is_step line = true
        /\ line ∈ PyStr.strip <$> lines).
Proof.
  revert m. induction lines as [|raw rest IH]; intros m H key d line Hk.
  - left. simpl in H. injection H as <-. exact Hk.
  - simpl in H. destruct (is_step (PyStr.strip raw)) eqn:Hs.
    + destruct (scan_locators locators (PyStr.strip raw) m) as [m1|e] eqn:H1;
        [|discriminate H].
      simpl in H.
      destruct (IH m1 H key d line Hk)
        as [Hm1|(? & ? & ? & ? & ? & ?)].
      * destruct (scan_locators_result _ _ _ _ H1)
          as [->|(d0 & Hin & _ & Hm & ->)]; [by left|].
        apply lookup_insert_Some in Hm1 as [[<- Heq]|[_ ?]]; [|by left].
        injection Heq as <- <-. right.
        split_and!; [done|done|apply spaced_no_underscore|done|done|].
        rewrite fmap_cons. apply list_elem_of_here.
      * right. split_and!; try done.
        rewrite fmap_cons. by apply list_elem_of_further.
    + destruct (IH m H key d line Hk)
        as [?|(? & ? & ? & ? & ? & ?)]; [by left|].
      right. split_and!; try done.
      rewrite fmap_cons. by apply list_elem_of_further.
Qed.

Lemma scan_entries_are_matches_witness :
  let d := record "user_name" "input_field" "//u" "u" in
  let m' : locator_map := {["user name" := (d, "When I type my User Name")]} in
  scan_lines ["  When I type my User Name"] [d] ∅ = Ok m'
  /\ m' !! "user name" = Some (d, "When I type my User Name")
  /\ mentions "When I type my User Name" d = true.
Proof.
  intros d m'.
  assert (H : scan_lines ["  When I type my User Name"] [d] ∅ = Ok m')
    by reflexivity.
  assert (Hk : m' !! "user name" = Some (d, "When I type my User Name"))
    by reflexivity.
  split_and!; [exact H|exact Hk|].
  destruct (scan_entries_are_matches _ _ _ _ H _ _ _ Hk)
    as [Hin|(_ & _ & _ & Hm & _)]; [|exact Hm].
  by rewrite lookup_empty in Hin.
Defined.

Lemma scan_locators_total locators line (m : locator_map) :
  Forall has_text_identifier locators ->
  exists m', scan_locators locators line m = Ok m' /\ dom m ⊆ dom m'.
Proof.
  induction 1 as [|d rest Hd _ IH].
  - by exists m.
  - rewrite (scan_locators_cons d rest line m Hd).
    destruct (mentions line d); [|exact IH].
    eexists. split; [done|]. unfold add_locator.
    rewrite dom_insert. apply union_subseteq_r.
Qed.

(** X17. When every record's identifier is a text or is missing, the
    scan returns a map for every document, and every key of the map it
    started from is still a key. *)
Theorem scan_returns_on_text_identifiers lines locators (m : locator_map) :
  Forall has_text_identifier locators ->
  exists m', scan_lines lines locators m = Ok m' /\ dom m ⊆ dom m'.
Proof.
  intros Hall. revert m. induction lines as [|raw rest IH]; intros m.
  - by exists m.
  - simpl. destruct (is_step (PyStr.strip raw)); [|apply IH].
    destruct (scan_locators_total locators (PyStr.strip raw) m Hall)
      as (m1 & -> & Hsub).
    simpl. destruct (IH m1) as (m' & -> & Hsub').
    exists m'. split; [done|]. by transitivity (dom m1).
Qed.

Lemma scan_returns_on_text_identifiers_witness :
  let d := record "user_name" "input_field" "//u" "u" in
  Forall has_text_identifier [d]
  /\ exists m', scan_lines ["  When I type my User Name"] [d] ∅ = Ok m'.
Proof.
  intros d.
  assert (H : Forall has_text_identifier [d])
    by (repeat constructor; discriminate).
  split; [exact H|].
  destruct (scan_returns_on_text_identifiers
              ["  When I type my User Name"] [d] ∅ H) as (m' & Heq & _).
  by exists m'.
Defined.

Lemma mentions_empty_identifier line d : ident d = EmptyString ->
  mentions line d = true.
Proof.
  unfold mentions. intros ->. simpl. by destruct (PyStr.lower line).
Qed.

(** X18. A record whose identifier is the empty text, or is missing,
    matches every step line. Standing first in the list it takes every
    step: the scan files nothing but that record, under the empty key,
    with the last step line of the document, and no other record is
    ever filed. *)
Theorem empty_identifier_takes_every_step lines d rest (m : locator_map) :
  has_text_identifier d -> ident d = EmptyString ->
  scan_lines lines (d :: rest) m
  = Ok (match last (List.filter is_step (PyStr.strip <$> lines)) with
        | Some line => <[EmptyString := (d, line)]> m
        | None => m
        end).
Proof.
  intros Hd Hid. revert m. induction lines as [|raw lines IH]; intros m.
  - done.
  - cbn [scan_lines fmap list_fmap List.filter].
    change (list_fmap _ _ PyStr.strip lines) with (PyStr.strip <$> lines).
    destruct (is_step (PyStr.strip raw)) eqn:Hs; [|apply IH].
    rewrite (scan_locators_cons d rest _ m Hd),
      (mentions_empty_identifier _ d Hid).
    simpl. rewrite IH, list_basics.list.last_cons. unfold add_locator.
    assert (spaced (ident d) = EmptyString) as -> by (by rewrite Hid).
    destruct (last (List.filter is_step (PyStr.strip <$> lines)));
      [|done].
    by rewrite insert_insert_eq.
Qed.

Lemma empty_identifier_takes_every_step_witness :
  let d : dict := <["xpath" := JStr "//a"]> ∅ in
  let named := record "user_name" "input_field" "//u" "u" in
  has_text_identifier d /\ ident d = EmptyString
  /\ scan_lines ["When I type my user name"; "Then I see it"] [d; named] ∅
     = Ok (<[EmptyString := (d, "Then I see it")]> ∅).
Proof.
  intros d named.
  assert (Hd : has_text_identifier d) by discriminate.
  assert (Hid : ident d = EmptyString) by reflexivity.
  split_and!; [exact Hd|exact Hid|].
  exact (empty_identifier_takes_every_step
           ["When I type my user name"; "Then I see it"] d [named] ∅ Hd Hid).
Defined.

(** X19. A record whose identifier is [null] makes the scan raise
    [AttributeError] at the first step line that no record before it
    matches; the lines after it are not looked at. *)
Theorem null_identifier_raises raw lines pre d post (m : locator_map) :
  is_step (PyStr.strip raw) = true ->
  Forall (fun d' => has_text_identifier d'
                    /\ mentions (PyStr.strip raw) d' = false) pre ->
  d !! "identifier" = Some JNull ->
  scan_lines (raw :: lines) (pre ++ d :: post) m = Raise AttributeError.
Proof.
  intros Hs Hpre Hd. simpl. rewrite Hs.
  assert (H : scan_locators (pre ++ d :: post) (PyStr.strip raw) m
              = Raise AttributeError).
  { induction Hpre as [|d' pre [Hd' Hm'] _ IH]; simpl app.
    - simpl. unfold spaced_identifier. by rewrite Hd.
    - by rewrite (scan_locators_cons d' _ _ m Hd'), Hm'. }
  by rewrite H.
Qed.

Lemma null_identifier_raises_witness :
  let d : dict := <["identifier" := JNull]> ∅ in
  let named := record "password" "input_field" "//p" "p" in
  is_step (PyStr.strip "  When I type my user name") = true
  /\ d !! "identifier" = Some JNull
  /\ scan_lines ["  When I type my user name"] [named; d] ∅
     = Raise AttributeError.
Proof.
  intros d named.
  assert (Hs : is_step (PyStr.strip "  When I type my user name") = true)
    by reflexivity.
  assert (Hd : d !! "identifier" = Some JNull) by reflexivity.
  split_and!; [exact Hs|exact Hd|].
  apply (null_identifier_raises _ [] [named] d [] ∅ Hs); [|exact Hd].
  constructor; [|constructor]. split; [discriminate|reflexivity].
Defined.

End ScanMore.

(** ** [sanitize_xpath]: the requoting of attribute values *)

Section XPathFacts.
Import PyStr Spec SpecX TestGenerator.

Lemma has_char_cons x c t :
  Orchestrator.has_char x (String c t)
  = is_char x c || Orchestrator.has_char x t.
Proof.
  unfold Orchestrator.has_char. simpl. by destruct (is_char x c).
Qed.

Lemma requote_in c t :
  requote true (String c t)
  = if is_char "'"%char c then String "034"%char (requote false t)
    else String c (requote true t).
Proof. reflexivity. Qed.

Lemma requote_out_end c : requote false (String c EmptyString) = String c EmptyString.
Proof. reflexivity. Qed.

Lemma requote_out c q t :
  requote false (String c (String q t))
  = if is_char "="%char c && is_char "'"%char q
       && Orchestrator.has_char "'"%char t
    then String c (String "034"%char (requote true t))
    else String c (requote false (String q t)).
Proof. reflexivity. Qed.

(** Outside a match a character that is no equals sign, or that is not
    followed by a quote, is copied. *)
Lemma requote_out_copy c t :
  is_char "="%char c && head_is (is_char "'"%char) t = false ->
  requote false (String c t) = String c (requote false t).
Proof.
  destruct t as [|q t]; [done|]. unfold head_is. simpl head. intros H.
  rewrite requote_out.
  destruct (is_char "="%char c); [|done]. simpl in H. by rewrite H.
Qed.

Lemma same_but_quotes_cons c c' s out :
  same_but_quotes (String c s) (String c' out)
  = (bool_decide (c = c') || (is_char "'"%char c && is_char "034"%char c'))
    && same_but_quotes s out.
Proof. reflexivity. Qed.

Lemma same_but_quotes_refl_cons c s out :
  same_but_quotes s out = true ->
  same_but_quotes (String c s) (String c out) = true.
Proof. intros H. simpl. by rewrite bool_decide_eq_true_2, H. Qed.

Lemma requote_same_pair s :
  (forall b, same_but_quotes s (requote b s) = true)
  /\ (forall b c, same_but_quotes (String c s) (requote b (String c s)) = true).
Proof.
  induction s as [|q t [IH1 IH2]].
  - split; [by intros []|]. intros [] c.
    + rewrite requote_in. destruct (is_char "'"%char c) eqn:Hc; simpl.
      * rewrite Hc. by rewrite orb_true_r.
      * by rewrite bool_decide_eq_true_2.
    + rewrite requote_out_end. simpl. by rewrite bool_decide_eq_true_2.
  - split; [intros b; apply IH2|]. intros [] c.
    + rewrite requote_in. destruct (is_char "'"%char c) eqn:Hc.
      * rewrite same_but_quotes_cons, Hc, (IH2 false q).
        by rewrite orb_true_r.
      * apply same_but_quotes_refl_cons, IH2.
    + rewrite requote_out.
      destruct (is_char "="%char c && is_char "'"%char q
                && Orchestrator.has_char "'"%char t) eqn:Hcond.
      * apply andb_true_iff in Hcond as [[_ Hq]%andb_true_iff _].
        apply same_but_quotes_refl_cons.
        rewrite same_but_quotes_cons, Hq, (IH1 true).
        by rewrite orb_true_r.
      * apply same_but_quotes_refl_cons, IH2.
Qed.

Lemma same_but_quotes_length s out :
  same_but_quotes s out = true -> String.length out = String.length s.
Proof.
  revert out. induction s as [|c t IH]; intros [|c' t'] H; try done.
  simpl in *. apply andb_true_iff in H as [_ H]. by rewrite (IH t' H).
Qed.

Lemma same_but_quotes_no_quote s out :
  same_but_quotes s out = true ->
  Orchestrator.has_char "'"%char s = false -> out = s.
Proof.
  revert out. induction s as [|c t IH]; intros [|c' t'] H Hq; try done.
  rewrite has_char_cons in Hq. apply orb_false_iff in Hq as [Hc Ht].
  simpl in H. apply andb_true_iff in H as [H1 H2].
  rewrite Hc in H1. simpl in H1. rewrite orb_false_r in H1.
  apply bool_decide_eq_true in H1 as <-. by rewrite (IH t' H2 Ht).
Qed.

Lemma requote_no_quote b s :
  Orchestrator.has_char "'"%char s = false -> requote b s = s.
Proof.
  intros H. apply same_but_quotes_no_quote; [|done].
  apply (requote_same_pair s).
Qed.

(** X20. [sanitize_xpath] changes nothing but quotes: the result has the
    length of the xpath and differs from it only where a single quote
    became a double quote; an xpath without single quote is returned
    unchanged. *)
Theorem sanitize_xpath_only_requotes xpath :
  same_but_quotes xpath (sanitize_xpath xpath) = true
  /\ String.length (sanitize_xpath xpath) = String.length xpath
  /\ (Orchestrator.has_char "'"%char xpath = false ->
      sanitize_xpath xpath = xpath).
Proof.
  pose proof (proj1 (requote_same_pair xpath) false) as H.
  split_and!; [exact H|by apply same_but_quotes_length|].
  apply requote_no_quote.
Qed.

Lemma sanitize_xpath_only_requotes_witness :
  let xpath := "//input[@id=" +:+ dq +:+ "name" +:+ dq +:+ "]" in
  Orchestrator.has_char "'"%char xpath = false
  /\ sanitize_xpath xpath = xpath.
Proof.
  intros xpath. split; [reflexivity|].
  destruct (sanitize_xpath_only_requotes xpath) as (_ & _ & H).
  apply H. reflexivity.
Defined.

(** Inside a match the output never starts with a single quote. *)
Lemma requote_in_head s : head_is (is_char "'"%char) (requote true s) = false.
Proof.
  destruct s as [|c t]; [done|]. rewrite requote_in.
  by destruct (is_char "'"%char c) eqn:Hc.
Qed.

Lemma requote_fixed_pair s :
  (forall b, requote false (requote b s) = requote b s)
  /\ (forall b c, requote false (requote b (String c s))
                  = requote b (String c s)).
Proof.
  induction s as [|q t [IH1 IH2]].
  - split; [by intros []|]. intros [] c.
    + rewrite requote_in. by destruct (is_char "'"%char c).
    + done.
  - split; [intros b; apply IH2|]. intros [] c.
    + rewrite requote_in. destruct (is_char "'"%char c) eqn:Hc; cbv iota.
      * rewrite requote_out_copy by done. by rewrite (IH2 false q).
      * rewrite requote_out_copy
          by (rewrite requote_in_head; apply andb_false_r).
        by rewrite (IH2 true q).
    + rewrite requote_out.
      destruct (is_char "="%char c) eqn:Hc; cycle 1.
      { cbn [andb]. cbv iota. rewrite requote_out_copy by (by rewrite Hc).
        by rewrite (IH2 false q). }
      destruct (is_char "'"%char q) eqn:Hq; cycle 1.
      { cbn [andb]. cbv iota. rewrite requote_out_copy.
        - by rewrite (IH2 false q).
        - rewrite Hc. cbn [andb].
          destruct t as [|q' t'].
          + rewrite requote_out_end. unfold head_is. cbn [head]. exact Hq.
          + rewrite requote_out.
            destruct (_ && _ && _); unfold head_is; cbn [head]; exact Hq. }
      destruct (Orchestrator.has_char "'"%char t) eqn:Ht; cbn [andb]; cbv iota.
      * rewrite requote_out_copy by apply andb_false_r.
        rewrite requote_out_copy by done. by rewrite (IH1 true).
      * assert (Eq : requote false (String q t) = String q t).
        { rewrite requote_out_copy.
          - by rewrite (requote_no_quote false t Ht).
          - apply bool_decide_eq_true in Hq. by subst q. }
        rewrite Eq, requote_out, Hc, Hq, Ht. cbn [andb]. cbv iota.
        by rewrite Eq.
Qed.

(** X21. [sanitize_xpath] is idempotent: an xpath that went through it
    is returned unchanged by a second call. *)
Theorem sanitize_xpath_idempotent xpath :
  sanitize_xpath (sanitize_xpath xpath) = sanitize_xpath xpath.
Proof. apply (proj1 (requote_fixed_pair xpath) false). Qed.

End XPathFacts.

(** ** The parsing of the scenario document in [convert_gherkin_to_test] *)

Section ParseFacts.
Import PyStr Spec SpecX TestGenerator.

Lemma startswith_split p s :
  startswith p s = true -> s = p +:+ drop (String.length p) s.
Proof.
  revert s. induction p as [|a p IH]; intros [|b s] H; try done.
  simpl in H. apply andb_true_iff in H as [<-%bool_decide_eq_true H].
  rewrite str_app_cons. simpl. by rewrite <- (IH s H).
Qed.

(** A line that opens a scenario has a colon, so the title lookup cannot
    fail; and it is no step line. *)
Lemma scenario_line l :
  startswith "Scenario:" l = true ->
  after_colon l = Some (drop 9 l) /\ is_step l = false.
Proof.
  intros H. rewrite (startswith_split _ _ H). simpl String.length.
  generalize (drop 9 l). intros r. by split.
Qed.

Lemma step_line_opens_nothing l :
  is_step l = true -> startswith "Scenario:" l = false.
Proof.
  intros H. destruct (startswith "Scenario:" l) eqn:E; [|done].
  apply scenario_line in E as [_ E]. congruence.
Qed.

Lemma parse_loop_app pre post cur steps :
  parse_loop (pre ++ post) cur steps
  = match parse_loop pre cur steps with
    | Some steps' => parse_loop post (scenario_after pre cur) steps'
    | None => None
    end.
Proof.
  revert cur steps. induction pre as [|raw pre IH]; intros cur steps; [done|].
  cbn [app parse_loop scenario_after].
  destruct (startswith "Scenario:" (strip raw)) eqn:E.
  - destruct (scenario_line _ E) as [-> _]. simpl. apply IH.
  - destruct (is_step (strip raw)); apply IH.
Qed.

Lemma parse_loop_total lines cur steps :
  exists out,
    parse_loop lines cur steps = Some (steps ++ out)
    /\ out.*2 = List.filter is_step (strip <$> lines).
Proof.
  revert cur steps. induction lines as [|raw lines IH]; intros cur steps.
  - exists []. by rewrite app_nil_r.
  - cbn [parse_loop fmap list_fmap List.filter].
    change (list_fmap _ _ strip lines) with (strip <$> lines).
    destruct (startswith "Scenario:" (strip raw)) eqn:E.
    + destruct (scenario_line _ E) as [-> ->]. simpl. apply IH.
    + destruct (is_step (strip raw)) eqn:Hs; [|apply IH].
      destruct (IH cur (steps ++ [(cur, strip raw)])) as (out & -> & Hout).
      exists ((cur, strip raw) :: out). rewrite <- app_assoc.
      split; [done|]. by rewrite fmap_cons, Hout.
Qed.

(** X22. The parsing of the scenario document never fails on the title
    lookup. The steps it collects are, in order, exactly the stripped
    lines that start with one of the four step keywords; the document
    is rejected as having no steps exactly when there is no such
    line. *)
Theorem parse_steps_are_step_lines gherkin_content :
  match parse_steps gherkin_content with
  | IndexError => False
  | NoSteps =>
      List.filter is_step (strip <$> splitlines gherkin_content) = []
  | Steps steps =>
      steps ≠ []
      /\ steps.*2
         = List.filter is_step (strip <$> splitlines gherkin_content)
  end.
Proof.
  unfold parse_steps.
  destruct (parse_loop_total (splitlines gherkin_content) None [])
    as (out & -> & Hout).
  simpl. destruct out as [|st out]; [by rewrite <- Hout|]. by split.
Qed.

Lemma scenario_after_label lines cur :
  match scenario_after lines cur with
  | None =>
      cur = None
      /\ Forall (fun raw => startswith "Scenario:" (strip raw) = false) lines
  | Some r =>
      cur = Some r \/ (is_empty r = false /\ head_is isdigit r = false)
  end.
Proof.
  revert cur. induction lines as [|raw lines IH]; intros cur.
  - simpl. destruct cur; [by left|by split].
  - cbn [scenario_after].
    destruct (startswith "Scenario:" (strip raw)) eqn:E.
    + specialize (IH (Some (Utils.sanitize (strip (drop 9 (strip raw)))))).
      destruct (scenario_after lines _) as [r|]; [|by destruct IH].
      right. destruct IH as [[= <-]|?]; [|done].
      destruct (sanitize_shape (strip (drop 9 (strip raw))))
        as (? & _ & ? & _). by split.
    + specialize (IH cur). destruct (scenario_after lines cur) as [r|].
      * exact IH.
      * destruct IH as [-> ?]. split; [done|]. by constructor.
Qed.

(** X23. Each step is labelled with the scenario in force where it
    stands: the sanitized title of the last line before it that starts
    with [Scenario:], a non-empty name that does not start with a
    digit, or [None] when no such line comes before it. *)
Theorem step_label_is_latest_scenario pre raw post :
  is_step (strip raw) = true ->
  exists steps,
    parse_loop (pre ++ raw :: post) None [] = Some steps
    /\ steps !! length (List.filter is_step (strip <$> pre))
       = Some (scenario_after pre None, strip raw)
    /\ match scenario_after pre None with
       | None =>
           Forall (fun l => startswith "Scenario:" (strip l) = false) pre
       | Some r => is_empty r = false /\ head_is isdigit r = false
       end.
Proof.
  intros Hs. rewrite parse_loop_app.
  destruct (parse_loop_total pre None []) as (out & -> & Hout).
  cbn [parse_loop]. rewrite (step_line_opens_nothing _ Hs), Hs.
  destruct (parse_loop_total post (scenario_after pre None)
              (([] ++ out) ++ [(scenario_after pre None, strip raw)]))
    as (out' & -> & _).
  eexists. split; [done|]. split.
  - rewrite <- Hout, length_fmap. simpl.
    rewrite <- app_assoc. simpl. by apply list_lookup_middle.
  - pose proof (scenario_after_label pre None) as H.
    destruct (scenario_after pre None) as [r|]; [|by destruct H].
    by destruct H.
Qed.

Lemma step_label_is_latest_scenario_witness :
  let pre := ["Feature: Login"; "  Scenario: Valid login!";
              "    Given the page is open"] in
  is_step (strip "    When I press Submit") = true
  /\ exists steps,
       parse_loop (pre ++ ["    When I press Submit"]) None [] = Some steps
       /\ steps !! 1 = Some (Some "valid_login", "When I press Submit").
Proof.
  intros pre.
  assert (Hs : is_step (strip "    When I press Submit") = true)
    by reflexivity.
  split; [exact Hs|].
  destruct (step_label_is_latest_scenario pre "    When I press Submit" [] Hs)
    as (steps & Heq & Hk & _).
  exists steps. split; [exact Heq|exact Hk].
Defined.

(** X24. A line that starts with [Scenario Outline] neither opens a
    scenario nor counts as a step: the parsing passes over it, and the
    steps below it keep the label of the scenario before it. *)
Theorem scenario_outline_is_passed_over raw rest cur steps :
  startswith "Scenario Outline" (strip raw) = true ->
  parse_loop (raw :: rest) cur steps = parse_loop rest cur steps.
Proof.
  intros H. cbn [parse_loop].
  rewrite (startswith_split _ _ H). simpl String.length.
  generalize (drop 16 (strip raw)). by intros r.
Qed.

Lemma scenario_outline_is_passed_over_witness :
  let raw := "  Scenario Outline: login with <user>" in
  startswith "Scenario Outline" (strip raw) = true
  /\ parse_loop [raw; "Given <user> is known"] (Some "login") []
     = Some [(Some "login", "Given <user> is known")].
Proof.
  intros raw.
  assert (H : startswith "Scenario Outline" (strip raw) = true)
    by reflexivity.
  split; [exact H|].
  rewrite (scenario_outline_is_passed_over raw _ (Some "login") [] H).
  reflexivity.
Defined.

End ParseFacts.

(** ** Fence stripping with text after the closing fence *)

Section FenceMore.
Import PyStr Spec GherkinToTest.

Lemma rstrip_cons_keep cls c t :
  cls c = false -> rstrip cls (String c t) = String c (rstrip cls t).
Proof. intros H. simpl. destruct (rstrip cls t); by rewrite ?H. Qed.

Lemma startswith_rstrip p cls s :
  all (fun c => negb (cls c)) p = true ->
  startswith p s = true -> startswith p (rstrip cls s) = true.
Proof.
  revert s. induction p as [|a p IH]; intros [|b s] Hp H; try done.
  simpl in Hp, H. apply andb_true_iff in Hp as [Ha%negb_true_iff Hp].
  apply andb_true_iff in H as [<-%bool_decide_eq_true H].
  rewrite rstrip_cons_keep by done. simpl.
  by rewrite bool_decide_eq_true_2, (IH s Hp H).
Qed.

Lemma startswith_class_false cls c p ws :
  cls c = false -> all cls ws = true -> startswith (String c p) ws = false.
Proof.
  intros Hc. destruct ws as [|a ws]; [done|]. simpl.
  intros [Ha _]%andb_true_iff. case_bool_decide; [|done]. congruence.
Qed.

Lemma rindex_class_none cls c p ws :
  cls c = false -> all cls ws = true -> rindex (String c p) ws = None.
Proof.
  intros Hc. induction ws as [|a ws IH]; intros Hws; [done|].
  cbn [rindex]. rewrite (startswith_class_false cls c p _ Hc Hws).
  simpl in Hws. apply andb_true_iff in Hws as [_ Hws]. by rewrite IH.
Qed.

Lemma startswith_cons a p b s :
  startswith (String a p) (String b s) = bool_decide (a = b) && startswith p s.
Proof. reflexivity. Qed.

(** After the closing fence only whitespace: that fence is the last. *)
Lemma rindex_fence_ws ws :
  all is_space ws = true -> rindex "```" ("```" +:+ ws) = Some 0.
Proof.
  intros Hws.
  assert (H0 : rindex "```" ws = None)
    by (by apply (rindex_class_none is_space)).
  assert (S1 : startswith "``" ws = false)
    by (by apply (startswith_class_false is_space)).
  assert (S2 : startswith "`" ws = false)
    by (by apply (startswith_class_false is_space)).
  change ("```" +:+ ws)
    with (String "`"%char (String "`"%char (String "`"%char ws))).
  assert (H1 : rindex "```" (String "`"%char ws) = None).
  { cbn [rindex]. by rewrite H0, startswith_cons, S1, andb_false_r. }
  assert (H2 : rindex "```" (String "`"%char (String "`"%char ws)) = None).
  { cbn [rindex]. rewrite H0.
    change (match (if startswith "```" (String "`"%char ws)
                   then Some 0 else None) with
            | Some i => Some (S i)
            | None => if startswith "```" (String "`"%char (String "`"%char ws))
                      then Some 0 else None
            end = None).
    rewrite (startswith_cons _ _ _ ws), S1, andb_false_r.
    by rewrite !startswith_cons, S2, !andb_false_r. }
  cbn [rindex] in H2 |- *. rewrite H2.
  by rewrite !startswith_cons, !bool_decide_eq_true_2.
Qed.

Lemma rindex_app_some p x y i :
  rindex p y = Some i -> rindex p (x +:+ y) = Some (String.length x + i).
Proof.
  intros H. induction x as [|c x IH]; [done|].
  rewrite str_app_cons. cbn [rindex]. by rewrite IH.
Qed.

(** X25. A response that, whitespace at its end apart, is one fenced
    block -- the marker, the rest of the first line, the body, the
    closing fence -- is persisted as the stripped body, whatever the
    body holds. *)
Theorem closed_fence_unwrapped info body ws :
  index nl info = None -> all is_space ws = true ->
  strip_fences ("```python" +:+ info +:+ nl +:+ body +:+ "```" +:+ ws)
  = strip body.
Proof.
  intros Hinfo Hws. unfold strip_fences.
  set (s := "```python" +:+ info +:+ nl +:+ body +:+ "```" +:+ ws).
  assert (Hstart : startswith "```python" (strip s) = true).
  { unfold strip, strip_class.
    assert (lstrip is_space s = s) as -> by reflexivity.
    apply startswith_rstrip; [reflexivity|apply startswith_app]. }
  rewrite Hstart.
  assert (Hidx : index nl s = Some (9 + String.length info)).
  { unfold s, nl in *. rewrite index_char_app.
    assert (index (char "010") "```python" = None) as -> by done.
    rewrite index_char_app, Hinfo.
    change (char "010" +:+ body +:+ "```" +:+ ws)
      with (String "010"%char (body +:+ "```" +:+ ws)).
    cbn [index]. simpl startswith. cbn. f_equal. lia. }
  rewrite Hidx.
  assert (Es : s = ("```python" +:+ info +:+ nl +:+ body) +:+ ("```" +:+ ws))
    by (unfold s; by rewrite !str_app_assoc).
  assert (Hr : rindex "```" s
          = Some (String.length ("```python" +:+ info +:+ nl +:+ body))).
  { rewrite Es, (rindex_app_some _ _ _ 0 (rindex_fence_ws ws Hws)).
    f_equal. lia. }
  rewrite Hr. f_equal. unfold slice.
  assert (Hd : drop (9 + String.length info + 1) s
               = body +:+ "```" +:+ ws).
  { assert (Es' : s = (("```python" +:+ info) +:+ nl)
                      +:+ (body +:+ "```" +:+ ws))
      by (unfold s; by rewrite !str_app_assoc).
    rewrite Es'.
    replace (9 + String.length info + 1)
      with (String.length (("```python" +:+ info) +:+ nl))
      by (rewrite !str_length_app; simpl; lia).
    apply drop_app. }
  rewrite Hd.
  replace (String.length ("```python" +:+ info +:+ nl +:+ body)
           - (9 + String.length info + 1)) with (String.length body)
    by (rewrite !str_length_app; simpl; lia).
  apply take_app.
Qed.

Lemma closed_fence_unwrapped_witness :
  index nl EmptyString = None /\ all is_space nl = true
  /\ strip_fences ("```python" +:+ nl +:+ "print(1)" +:+ nl +:+ "```" +:+ nl)
     = "print(1)".
Proof.
  assert (H1 : index nl EmptyString = None) by reflexivity.
  assert (H2 : all is_space nl = true) by reflexivity.
  split_and!; [exact H1|exact H2|].
  exact (closed_fence_unwrapped EmptyString ("print(1)" +:+ nl) nl H1 H2).
Defined.

End FenceMore.
